(** * Antenna: routing, persistent queue and RabbitMQ transport

    A shallow embedding of three TypeScript classes of the repository,

    - [RoutingHandler]  (src/handlers/RoutingHandler.ts),
    - [QueueManager]    (src/handlers/QueueManager.ts),
    - [RabbitMQSender]  (src/handlers/RabbitMQSender.ts),

    and of the escaping of [TelegramNotifier], together with the
    properties of them that the specification states.

    Conventions of the embedding.
    - JavaScript strings are Rocq [string]s (bytes): the texts of ASCII
      characters.  [toLowerCase] and [trim] are the ASCII parts of the
      JavaScript functions: letters [A-Z] are folded, the white space is
      [\t \n \v \f \r] and the blank; on a text with other characters
      JavaScript folds and trims more (U+212A to [k], U+00A0 as white
      space).  All keywords of the source are ASCII.
    - JavaScript numbers that count or name something (row ids, limits,
      offsets) are whole numbers, in [Z].  Where the code depends on
      their being doubles, the range in which the two agree is written
      out: [safe_integer] for the text of a number, [sqlite_integer]
      for a number bound to LIMIT or OFFSET.
    - Methods that mutate [this] and may throw are computations of the
      monad [Eff.M]: a state that survives an exception, as in JavaScript.
    - What the outside world answers (the broker, the clock, the UUID
      generator, the notifier) is an explicit argument of the method.
    - An [async] method runs to completion as one step: no other event is
      interleaved at its [await]s, but for the event that the awaited call
      itself causes, the ['close'] of the connection during [close()].
      The one promise that stays pending on purpose, the drain wait of
      [sendSMS], is a value of [Promise].
    - The output on the console is left out. *)

From Stdlib Require Import ZArith Lia Ascii String Bool Sorted Permutation.
From stdpp Require Import base list strings pretty gmap.

Local Open Scope Z_scope.

(** ** JavaScript string functions used by the sources *)

Module JsString.

Definition is_upper (c : ascii) : bool :=
  (65 <=? nat_of_ascii c)%nat && (nat_of_ascii c <=? 90)%nat.

Definition lower_char (c : ascii) : ascii :=
  if is_upper c then ascii_of_nat (nat_of_ascii c + 32) else c.

(** [String.prototype.toLowerCase], ASCII letters. *)
Fixpoint toLowerCase (s : string) : string :=
  match s with
  | EmptyString => EmptyString
  | String c r => String (lower_char c) (toLowerCase r)
  end.

(** [String.prototype.startsWith]. *)
Fixpoint startsWith (p s : string) : bool :=
  match p, s with
  | EmptyString, _ => true
  | String a p', String b s' => Ascii.eqb a b && startsWith p' s'
  | String _ _, EmptyString => false
  end.

(** [String.prototype.includes]: the needle starts at some position. *)
Fixpoint includes (needle s : string) : bool :=
  startsWith needle s ||
  match s with
  | EmptyString => false
  | String _ r => includes needle r
  end.

Definition is_space (c : ascii) : bool :=
  let n := nat_of_ascii c in
  ((9 <=? n)%nat && (n <=? 13)%nat) || (n =? 32)%nat.

Fixpoint trimStart (s : string) : string :=
  match s with
  | EmptyString => EmptyString
  | String c r => if is_space c then trimStart r else s
  end.

(** Drops the white space at the end: a character is kept when it is
    not a space or when something is kept after it. *)
Fixpoint trimEnd (s : string) : string :=
  match s with
  | EmptyString => EmptyString
  | String c r =>
      match trimEnd r with
      | EmptyString => if is_space c then EmptyString else String c EmptyString
      | r' => String c r'
      end
  end.

(** [String.prototype.trim]. *)
Definition trim (s : string) : string := trimEnd (trimStart s).

(** [String.prototype.endsWith]. *)
Definition endsWith (suf s : string) : bool :=
  let n := String.length s in
  let m := String.length suf in
  (m <=? n)%nat && String.eqb (String.substring (n - m) m s) suf.

(** [Array.prototype.some] over a list of keywords. *)
Definition some {A} (p : A -> bool) (l : list A) : bool := existsb p l.

End JsString.

(** ** The enumerations of QueueManager.ts *)

Inductive Priority := Urgent | High | Normal | Low.
Inductive Status := Pending | Processing | Resolved | Failed.
Inductive RoutingAction := Notify | Queue | AutoRespond | Ignore.

Global Instance Priority_eq_dec : EqDecision Priority.
Proof. solve_decision. Defined.
Global Instance Status_eq_dec : EqDecision Status.
Proof. solve_decision. Defined.
Global Instance RoutingAction_eq_dec : EqDecision RoutingAction.
Proof. solve_decision. Defined.

(** ** Computations with state and exceptions

    [M S A]: run on a state, end with a value or with a thrown [Error]
    (its message), and the state as it is at that point. *)

Module Eff.

Inductive Completion (E A : Type) :=
| Return (a : A)
| Throw (e : E).
Global Arguments Return {E A} a.
Global Arguments Throw {E A} e.

Definition M (S E A : Type) : Type := S -> Completion E A * S.

Definition ret {S E A} (a : A) : M S E A := fun s => (Return a, s).

Definition bind {S E A B} (m : M S E A) (k : A -> M S E B) : M S E B :=
  fun s =>
    match m s with
    | (Return a, s') => k a s'
    | (Throw e, s') => (Throw e, s')
    end.

Definition throw {S E A} (e : E) : M S E A := fun s => (Throw e, s).

(** [try { m } catch (e) { h e }] *)
Definition try_catch {S E A} (m : M S E A) (h : E -> M S E A) : M S E A :=
  fun s =>
    match m s with
    | (Return a, s') => (Return a, s')
    | (Throw e, s') => h e s'
    end.

Definition get {S E} : M S E S := fun s => (Return s, s).
Definition gets {S E A} (f : S -> A) : M S E A := fun s => (Return (f s), s).
Definition modify {S E} (f : S -> S) : M S E unit := fun s => (Return tt, f s).

(** [if (c) { m }] *)
Definition when {S E} (c : bool) (m : M S E unit) : M S E unit :=
  if c then m else ret tt.

End Eff.

Declare Scope eff_scope.
Delimit Scope eff_scope with eff.
Notation "x <- m ;; k" := (Eff.bind m (fun x => k))
  (at level 100, m at next level, right associativity) : eff_scope.
Notation "m ;;; k" := (Eff.bind m (fun _ => k))
  (at level 100, right associativity) : eff_scope.

Local Open Scope eff_scope.

(** A JavaScript [Error]: its message. *)
Definition Error := string.

Definition quote : string := String (ascii_of_nat 34) EmptyString.

(** ** QueueManager.ts: the SQLite table [messages] and its statements *)

Module QueueManager.
Import Eff.

(** A JSON object with string or number fields, as kept in [metadata]. *)
Inductive JsonValue := JStr (s : string) | JNum (z : Z).
Definition JsonObject := list (string * JsonValue).

(** [{ ...o, k: v }]: an existing key keeps its place, a new one is
    added at the end. *)
Fixpoint obj_set (k : string) (v : JsonValue) (o : JsonObject) : JsonObject :=
  match o with
  | [] => [(k, v)]
  | (k', v') :: o' =>
      if String.eqb k k' then (k, v) :: o' else (k', v') :: obj_set k v o'
  end.

(** A row of [messages] in the columns that the statements select
    (the columns [created_at] and [updated_at] are read nowhere). *)
Record Message := {
  id : Z;
  sender : string;
  content : string;
  priority : Priority;
  status : Status;
  timestamp : Z;
  routing_action : RoutingAction;
  metadata : option JsonObject;
}.

Record QueueFilters := {
  f_status : option Status;
  f_priority : option Priority;
  f_routing_action : option RoutingAction;
  f_sender : option string;
  f_limit : option Z;
  f_offset : option Z;
}.

(** [getQueue()] without argument: [filters = {}]. *)
Definition no_filters : QueueFilters :=
  {| f_status := None; f_priority := None; f_routing_action := None;
     f_sender := None; f_limit := None; f_offset := None |}.

(** The statements the class runs that write, in the order they ran. *)
Inductive Stmt :=
| InsertRow (row : Message)
| UpdateStatus (s : Status) (rowid : Z).

(** The database: the rows in rowid order, the AUTOINCREMENT counter
    and the journal of the writes. *)
Record Db := {
  rows : list Message;
  last_rowid : Z;
  journal : list Stmt;
}.

(** A new database file: the schema and nothing else. *)
Definition empty_db : Db := {| rows := []; last_rowid := 0; journal := [] |}.

Definition set_status (s : Status) (m : Message) : Message :=
  {| id := id m; sender := sender m; content := content m;
     priority := priority m; status := s; timestamp := timestamp m;
     routing_action := routing_action m; metadata := metadata m |}.

(** [insertStmt.run(...)]: returns [lastInsertRowid].  The values come
    from the enumerations, so the CHECK constraints hold; a failure of
    the storage itself is left out, and the statement does not throw. *)
Definition insert_run (sender_ content_ : string) (p : Priority) (s : Status)
    (ts : Z) (a : RoutingAction) (md : option JsonObject) : M Db Error Z :=
  fun db =>
    let rowid := last_rowid db + 1 in
    let row := {| id := rowid; sender := sender_; content := content_;
                  priority := p; status := s; timestamp := ts;
                  routing_action := a; metadata := md |} in
    (Return rowid,
     {| rows := rows db ++ [row]; last_rowid := rowid;
        journal := journal db ++ [InsertRow row] |}).

(** [updateStatusStmt.run(status, id)]: returns [changes]. *)
Definition update_run (s : Status) (rowid : Z) : M Db Error nat :=
  fun db =>
    let hit := fun m : Message => Z.eqb (id m) rowid in
    (Return (length (List.filter hit (rows db))),
     {| rows := map (fun m => if hit m then set_status s m else m) (rows db);
        last_rowid := last_rowid db;
        journal := journal db ++ [UpdateStatus s rowid] |}).

(** [addToQueue(message, priority, action, sender, metadata?)];
    [now] is what [Date.now()] returns. *)
Definition addToQueue (now : Z) (message : string) (p : Priority)
    (a : RoutingAction) (sender_ : string) (md : option JsonObject)
    : M Db Error Z :=
  try_catch
    (insert_run sender_ message p Pending now a md)
    (fun err => throw ("Failed to add message to queue: " +:+ err)).

(** [updateStatus(messageId, status)].  The id in the text of the error
    is written as JavaScript writes a number that is a safe integer
    ([safe_integer] below), digit by digit; the ids of rows are such. *)
Definition updateStatus (messageId : Z) (s : Status) : M Db Error unit :=
  try_catch
    (changes <- update_run s messageId ;;
     if Nat.eqb changes 0
     then throw ("Message " +:+ pretty messageId +:+ " not found")
     else ret tt)
    (fun err => throw ("Failed to update message status: " +:+ err)).

Definition markResolved (messageId : Z) := updateStatus messageId Resolved.
Definition markProcessing (messageId : Z) := updateStatus messageId Processing.
Definition markFailed (messageId : Z) := updateStatus messageId Failed.

(** [getMessage(messageId)]: [null] is [None]. *)
Definition getMessage (messageId : Z) (db : Db) : option Message :=
  head (List.filter (fun m => Z.eqb (id m) messageId) (rows db)).

(** *** The query that [getQueue] builds

    The text is kept as the list of the pieces that the method appends
    to [SELECT ... FROM messages WHERE 1=1], with the bound values. *)
Inductive Piece :=
| AND_status       (* " AND status = ?" *)
| AND_priority     (* " AND priority = ?" *)
| AND_action       (* " AND routing_action = ?" *)
| AND_sender       (* " AND sender = ?" *)
| ORDER_BY_ts_DESC (* " ORDER BY timestamp DESC" *)
| LIMIT            (* " LIMIT ?" *)
| OFFSET.          (* " OFFSET ?" *)

Inductive Param :=
| PStatus (s : Status)
| PPriority (p : Priority)
| PAction (a : RoutingAction)
| PText (s : string)
| PInt (z : Z).

Definition Query : Type := list Piece * list Param.

(** JavaScript truthiness of the optional fields: an absent field, the
    empty string and the number 0 are falsy. *)
Definition truthy_str (o : option string) : option string :=
  match o with
  | Some s => if String.eqb s "" then None else Some s
  | None => None
  end.
Definition truthy_num (o : option Z) : option Z :=
  match o with
  | Some z => if Z.eqb z 0 then None else Some z
  | None => None
  end.

Definition append {A} (o : option A) (pc : Piece) (pm : A -> Param)
    (q : Query) : Query :=
  match o with
  | Some a => (fst q ++ [pc], snd q ++ [pm a])
  | None => q
  end.

Definition build_query (filters : QueueFilters) : Query :=
  let q := ([], []) in
  let q := append (f_status filters) AND_status PStatus q in
  let q := append (f_priority filters) AND_priority PPriority q in
  let q := append (f_routing_action filters) AND_action PAction q in
  let q := append (truthy_str (f_sender filters)) AND_sender PText q in
  let q := (fst q ++ [ORDER_BY_ts_DESC], snd q) in
  let q := append (truthy_num (f_limit filters)) LIMIT PInt q in
  let q := append (truthy_num (f_offset filters)) OFFSET PInt q in
  q.

(** *** What SQLite answers

    The part of SQLite that such a text reaches, after its
    documentation: the [AND] terms of the [WHERE] clause compare a
    column with the bound value, [ORDER BY timestamp DESC] sorts
    (rows of one timestamp come in an order that SQL leaves open; here
    they stay in rowid order: a statement about the answer holds of
    the code only if it does not depend on that order), a negative
    [LIMIT] is no limit, a negative [OFFSET] is 0, and the grammar of
    [SELECT] has [OFFSET] only after [LIMIT]: a text with [OFFSET] and
    no [LIMIT] is refused by [prepare].  The value bound to [LIMIT] or
    [OFFSET] must convert to a 64-bit integer: the numbers of
    JavaScript are doubles, and SQLite converts a double that is a whole
    number strictly between -2^63 and 2^63; for any other the statement
    fails with [datatype mismatch].  The fields [limit] and [offset]
    are whole numbers here. *)

Definition cond_of (pc : Piece) (pm : Param) : option (Message -> bool) :=
  match pc, pm with
  | AND_status, PStatus s => Some (fun m => bool_decide (status m = s))
  | AND_priority, PPriority p => Some (fun m => bool_decide (priority m = p))
  | AND_action, PAction a => Some (fun m => bool_decide (routing_action m = a))
  | AND_sender, PText s => Some (fun m => String.eqb (sender m) s)
  | _, _ => None
  end.

Fixpoint where_of (ps : list Piece) (vs : list Param)
    : (Message -> bool) * (list Piece * list Param) :=
  match ps, vs with
  | pc :: ps', pm :: vs' =>
      match cond_of pc pm with
      | Some c =>
          let '(c', rest) := where_of ps' vs' in
          (fun m => c m && c' m, rest)
      | None => (fun _ => true, (ps, vs))
      end
  | _, _ => (fun _ => true, (ps, vs))
  end.

Fixpoint insert_desc (m : Message) (l : list Message) : list Message :=
  match l with
  | [] => [m]
  | x :: l' =>
      if timestamp x <=? timestamp m then m :: l else x :: insert_desc m l'
  end.

Definition order_by_ts_desc (l : list Message) : list Message :=
  foldr insert_desc [] l.

Definition limit_offset (n k : Z) (l : list Message) : list Message :=
  let l' := drop (Z.to_nat k) l in
  if n <? 0 then l' else take (Z.to_nat n) l'.

Definition sqlite_integer (z : Z) : bool :=
  (- 2 ^ 63 <? z) && (z <? 2 ^ 63).

Definition syntax_error_near (tok : string) : Error :=
  "near " +:+ quote +:+ tok +:+ quote +:+ ": syntax error".

(** [db.prepare(query).all(...params)] *)
Definition sqlite_all (q : Query) (table : list Message)
    : Completion Error (list Message) :=
  let '(cond, (ps, vs)) := where_of (fst q) (snd q) in
  let sel := order_by_ts_desc (List.filter cond table) in
  match ps, vs with
  | [ORDER_BY_ts_DESC], [] => Return sel
  | [ORDER_BY_ts_DESC; LIMIT], [PInt n] =>
      if sqlite_integer n then Return (limit_offset n 0 sel)
      else Throw "datatype mismatch"
  | [ORDER_BY_ts_DESC; LIMIT; OFFSET], [PInt n; PInt k] =>
      if sqlite_integer n && sqlite_integer k
      then Return (limit_offset n k sel)
      else Throw "datatype mismatch"
  | ORDER_BY_ts_DESC :: OFFSET :: _, _ => Throw (syntax_error_near "OFFSET")
  | _, _ => Throw "SQL logic error"
  end.

(** [getQueue(filters)] *)
Definition getQueue (filters : QueueFilters) : M Db Error (list Message) :=
  try_catch
    (fun db => (sqlite_all (build_query filters) (rows db), db))
    (fun err => throw ("Failed to retrieve queue: " +:+ err)).

(** *** Notions used to state the properties of the queue *)

(** Rowids are handed out upwards: no row is above the counter. *)
Definition well_formed (db : Db) : Prop :=
  Forall (fun m => id m <= last_rowid db) (rows db).

(** A row passes the filters that are supplied: a field that is absent
    (or falsy, for the sender) asks nothing. *)
Definition passes (f : QueueFilters) (m : Message) : bool :=
  from_option (fun s => bool_decide (status m = s)) true (f_status f)
  && from_option (fun p => bool_decide (priority m = p)) true (f_priority f)
  && from_option (fun a => bool_decide (routing_action m = a)) true
       (f_routing_action f)
  && from_option (fun s => String.eqb (sender m) s) true
       (truthy_str (f_sender f)).

(** [Number.isSafeInteger]: the whole numbers that a double holds
    exactly, and that a template literal writes out in full. *)
Definition safe_integer (k : Z) : Prop := - 2 ^ 53 < k < 2 ^ 53.

(** Newest first: no row is older than the row after it. *)
Definition descending : list Message -> Prop :=
  Sorted (fun a b => timestamp b <= timestamp a).

(** *** [getStats]

    [SELECT status, COUNT( * ) ... GROUP BY status] has one row for each
    status that some message has (in an order that SQL leaves open;
    here the order of the status texts). *)
Record Stats := {
  total : nat;
  pending : nat;
  processing : nat;
  resolved : nat;
  failed : nat;
}.

Definition count_status (s : Status) (table : list Message) : nat :=
  length (List.filter (fun m => bool_decide (status m = s)) table).

Definition group_by_status (table : list Message) : list (Status * nat) :=
  List.filter (fun g => negb (Nat.eqb (snd g) 0))
    (map (fun s => (s, count_status s table))
         [Failed; Pending; Processing; Resolved]).

(** [stats[row.status] = row.count; stats.total += row.count] *)
Definition add_group (st : Stats) (g : Status * nat) : Stats :=
  let n := snd g in
  match fst g with
  | Pending => {| total := total st + n; pending := n;
                  processing := processing st; resolved := resolved st;
                  failed := failed st |}
  | Processing => {| total := total st + n; pending := pending st;
                     processing := n; resolved := resolved st;
                     failed := failed st |}
  | Resolved => {| total := total st + n; pending := pending st;
                   processing := processing st; resolved := n;
                   failed := failed st |}
  | Failed => {| total := total st + n; pending := pending st;
                 processing := processing st; resolved := resolved st;
                 failed := n |}
  end.

Definition getStats : M Db Error Stats :=
  try_catch
    (fun db =>
       (Return (foldl add_group
                  {| total := 0; pending := 0; processing := 0;
                     resolved := 0; failed := 0 |}
                  (group_by_status (rows db))), db))
    (fun err => throw ("Failed to get queue stats: " +:+ err)).

(** *** Notions used to state the properties of the queue, continued *)

(** The rowids of the table are distinct, positive and not above the
    counter. *)
Definition consistent (db : Db) : Prop :=
  NoDup (map id (rows db))
  /\ 0 <= last_rowid db
  /\ Forall (fun m => 0 < id m <= last_rowid db) (rows db).

(** The operations on the queue that write. *)
Inductive Operation :=
| Add (now : Z) (message : string) (p : Priority) (a : RoutingAction)
      (sender_ : string) (md : option JsonObject)
| Mark (s : Status) (messageId : Z).

Definition perform (op : Operation) (db : Db) : Db :=
  match op with
  | Add now message p a sender_ md =>
      snd (addToQueue now message p a sender_ md db)
  | Mark s messageId => snd (updateStatus messageId s db)
  end.

(** A table after a list of operations. *)
Definition perform_all (ops : list Operation) (db : Db) : Db :=
  foldl (fun db op => perform op db) db ops.

(** The filters with the limit taken away. *)
Definition without_limit (f : QueueFilters) : QueueFilters :=
  {| f_status := f_status f; f_priority := f_priority f;
     f_routing_action := f_routing_action f; f_sender := f_sender f;
     f_limit := None; f_offset := f_offset f |}.
Definition with_limit (n : Z) (f : QueueFilters) : QueueFilters :=
  {| f_status := f_status f; f_priority := f_priority f;
     f_routing_action := f_routing_action f; f_sender := f_sender f;
     f_limit := Some n; f_offset := f_offset f |}.
Definition with_sender (o : option string) (f : QueueFilters) : QueueFilters :=
  {| f_status := f_status f; f_priority := f_priority f;
     f_routing_action := f_routing_action f; f_sender := o;
     f_limit := f_limit f; f_offset := f_offset f |}.

End QueueManager.

(** ** RoutingHandler.ts *)

Module RoutingHandler.
Import Eff.

Inductive Channel := sms | email | other.
Inductive ResponseChannel := via_sms | via_email.

Definition channel_name (c : Channel) : string :=
  match c with sms => "sms" | email => "email" | other => "other" end.

Record IncomingMessage := {
  sender : string;
  content : string;
  channel : Channel;
  timestamp : option Z;
  metadata : option QueueManager.JsonObject;
}.

Record AutoResponse := {
  template : string;
  response_channel : ResponseChannel;
  subject : option string;
}.

Record RoutingRule := {
  condition : IncomingMessage -> bool;
  priority : Priority;
  action : RoutingAction;
  autoResponse : option AutoResponse;
}.

Record ProcessingResult := {
  messageId : Z;
  result_action : RoutingAction;
  result_priority : Priority;
  notified : bool;
  responded : bool;
  error : option string;
}.

Record NotificationMessage := {
  n_sender : string;
  n_content : string;
  n_priority : Priority;
  n_timestamp : Z;
  n_messageId : Z;
}.

Record ResponseResult := {
  success : bool;
  response_id : option string;
  response_error : option string;
}.

(** *** The five default rules, in the order [initializeDefaultRules]
    pushes them *)

Definition urgentKeywords : list string :=
  ["urgent"; "emergency"; "911"; "help"; "asap"; "critical"].
Definition importantKeywords : list string :=
  ["important"; "priority"; "deadline"; "tomorrow"].
Definition spamKeywords : list string :=
  ["free"; "win"; "prize"; "click here"; "unsubscribe"].

Definition rule_urgent : RoutingRule :=
  {| condition := fun msg =>
       let content := JsString.toLowerCase (content msg) in
       JsString.some (fun keyword => JsString.includes keyword content)
                     urgentKeywords;
     priority := Urgent; action := Notify; autoResponse := None |}.

Definition rule_important : RoutingRule :=
  {| condition := fun msg =>
       let content := JsString.toLowerCase (content msg) in
       JsString.some (fun keyword => JsString.includes keyword content)
                     importantKeywords;
     priority := High; action := Notify; autoResponse := None |}.

Definition rule_question : RoutingRule :=
  {| condition := fun msg =>
       let content := JsString.trim (content msg) in
       JsString.endsWith "?" content
       || JsString.startsWith "can you" (JsString.toLowerCase content);
     priority := Normal; action := Queue; autoResponse := None |}.

Definition rule_spam : RoutingRule :=
  {| condition := fun msg =>
       let content := JsString.toLowerCase (content msg) in
       JsString.some (fun keyword => JsString.includes keyword content)
                     spamKeywords;
     priority := Low; action := Ignore; autoResponse := None |}.

Definition rule_default : RoutingRule :=
  {| condition := fun _ => true;
     priority := Normal; action := Queue; autoResponse := None |}.

(** [initializeDefaultRules()]: five [push]es on [this.rules]. *)
Definition initializeDefaultRules (rules : list RoutingRule) : list RoutingRule :=
  rules ++ [rule_urgent; rule_important; rule_question; rule_spam; rule_default].

(** The constructor: [this.rules = []; this.initializeDefaultRules()]. *)
Definition new_rules : list RoutingRule := initializeDefaultRules [].

(** [addRule(rule)]: [this.rules.splice(this.rules.length - 1, 0, rule)].
    A negative start counts from the end and stops at 0, so on an empty
    array the rule goes to position 0. *)
Definition addRule (rule : RoutingRule) (rules : list RoutingRule)
    : list RoutingRule :=
  let start := (length rules - 1)%nat in
  take start rules ++ rule :: drop start rules.

(** [resetRules()] *)
Definition resetRules (rules : list RoutingRule) : list RoutingRule :=
  initializeDefaultRules [].

(** The [for ... of] loop of [findMatchingRule]: the first rule whose
    condition holds, if the loop returns. *)
Fixpoint first_match (rules : list RoutingRule) (message : IncomingMessage)
    : option RoutingRule :=
  match rules with
  | [] => None
  | rule :: rest =>
      if condition rule message then Some rule else first_match rest message
  end.

(** The rule returned after the loop ("should never happen"). *)
Definition fallback_rule : RoutingRule :=
  {| condition := fun _ => true;
     priority := Normal; action := Queue; autoResponse := None |}.

Definition findMatchingRule (rules : list RoutingRule)
    (message : IncomingMessage) : RoutingRule :=
  match first_match rules message with
  | Some rule => rule
  | None => fallback_rule
  end.

(** The rule lists a handler can hold: what the constructor builds,
    changed by [addRule] and [resetRules]. *)
Inductive reachable : list RoutingRule -> Prop :=
| reach_new : reachable new_rules
| reach_add rule rules : reachable rules -> reachable (addRule rule rules)
| reach_reset rules : reachable rules -> reachable (resetRules rules).

(** *** [process]

    What the method asks from outside: the clock, the Telegram notifier
    (it answers [false] on every failure and throws nothing) and the
    auto responder, which may itself write to the queue. *)
Record World := {
  now_received : Z;      (* Date.now() for a message without timestamp *)
  now_processed : Z;     (* Date.now() in the metadata *)
  now_inserted : Z;      (* Date.now() in addToQueue *)
  toLocaleString : Z -> string;
  sendNotification : NotificationMessage -> bool;
  sendTemplatedResponse :
    string -> string -> list (string * string) -> ResponseChannel ->
    option string -> M QueueManager.Db Error ResponseResult;
}.

(** [message.timestamp || Date.now()] *)
Definition timestamp_or_now (w : World) (message : IncomingMessage) : Z :=
  match timestamp message with
  | Some t => if t =? 0 then now_received w else t
  | None => now_received w
  end.

(** [{ ...message.metadata, channel, processedAt }] *)
Definition queue_metadata (w : World) (message : IncomingMessage)
    : QueueManager.JsonObject :=
  QueueManager.obj_set "processedAt" (QueueManager.JNum (now_processed w))
    (QueueManager.obj_set "channel"
       (QueueManager.JStr (channel_name (channel message)))
       (default [] (metadata message))).

Definition process (w : World) (rules : list RoutingRule)
    (message : IncomingMessage) : M QueueManager.Db Error ProcessingResult :=
  let timestamp := timestamp_or_now w message in
  try_catch
    (let rule := findMatchingRule rules message in
     messageId <- QueueManager.addToQueue (now_inserted w) (content message)
                    (priority rule) (action rule) (sender message)
                    (Some (queue_metadata w message)) ;;
     notified <-
       (if bool_decide (action rule = Notify) then
          QueueManager.markProcessing messageId ;;;
          let notified := sendNotification w
                {| n_sender := sender message; n_content := content message;
                   n_priority := priority rule; n_timestamp := timestamp;
                   n_messageId := messageId |} in
          (if notified then QueueManager.markResolved messageId
           else QueueManager.markFailed messageId) ;;;
          ret notified
        else ret false) ;;
     responded <-
       (match autoResponse rule with
        | Some ar =>
            if bool_decide (action rule = AutoRespond) then
              QueueManager.markProcessing messageId ;;;
              result <- sendTemplatedResponse w (sender message) (template ar)
                          [("sender", sender message);
                           ("content", content message);
                           ("timestamp", toLocaleString w timestamp)]
                          (response_channel ar) (subject ar) ;;
              (if success result then QueueManager.markResolved messageId
               else QueueManager.markFailed messageId) ;;;
              ret (success result)
            else ret false
        | None => ret false
        end) ;;
     when (bool_decide (action rule = Ignore))
          (QueueManager.markResolved messageId) ;;;
     ret {| messageId := messageId; result_action := action rule;
            result_priority := priority rule; notified := notified;
            responded := responded; error := None |})
    (fun err =>
       ret {| messageId := -1; result_action := Queue;
              result_priority := Normal; notified := false;
              responded := false; error := Some err |}).

(** *** Notions used to state the properties of the rules *)

(** A catch-all: its condition holds of every message and its decision
    is normal priority, queue. *)
Definition catch_all (r : RoutingRule) : Prop :=
  (forall m, condition r m = true) /\ priority r = Normal /\ action r = Queue.

(** *** The other methods of the handler *)

(** [processBatch(messages)]: the messages one after the other, the
    results in their order.  [w i] is the outside at the [i]-th message;
    the pause between two messages is left out. *)
Fixpoint processBatch (w : nat -> World) (rules : list RoutingRule)
    (messages : list IncomingMessage)
    : M QueueManager.Db Error (list ProcessingResult) :=
  match messages with
  | [] => ret []
  | message :: rest =>
      result <- process (w 0%nat) rules message ;;
      results <- processBatch (fun i => w (S i)) rules rest ;;
      ret (result :: results)
  end.

(** [getPendingMessages(limit = 50)] *)
Definition getPendingMessages (limit : option Z)
    : M QueueManager.Db Error (list QueueManager.Message) :=
  QueueManager.getQueue
    {| QueueManager.f_status := Some Pending;
       QueueManager.f_priority := None;
       QueueManager.f_routing_action := None;
       QueueManager.f_sender := None;
       QueueManager.f_limit := Some (default 50 limit);
       QueueManager.f_offset := None |}.

(** [getMessagesByPriority(priority, limit = 50)] *)
Definition getMessagesByPriority (p : Priority) (limit : option Z)
    : M QueueManager.Db Error (list QueueManager.Message) :=
  QueueManager.getQueue
    {| QueueManager.f_status := None;
       QueueManager.f_priority := Some p;
       QueueManager.f_routing_action := None;
       QueueManager.f_sender := None;
       QueueManager.f_limit := Some (default 50 limit);
       QueueManager.f_offset := None |}.

(** [getStats()] *)
Definition getStats : M QueueManager.Db Error QueueManager.Stats :=
  QueueManager.getStats.

(** The status in which [process] leaves the row of a message, for a rule
    without auto response. *)
Definition final_status (a : RoutingAction) (notified : bool) : Status :=
  match a with
  | Notify => if notified then Resolved else Failed
  | Ignore => Resolved
  | Queue | AutoRespond => Pending
  end.

(** The changes of status that [process] asks for, for such a rule. *)
Definition status_changes (a : RoutingAction) (notified : bool) : list Status :=
  match a with
  | Notify => [Processing; if notified then Resolved else Failed]
  | Ignore => [Resolved]
  | Queue | AutoRespond => []
  end.

End RoutingHandler.

(** ** TelegramNotifier.ts: the escaping of the notification text *)

Module TelegramNotifier.

(** [text.replace(/c/g, by)] for a pattern of one character. *)
Fixpoint replace_all (c : ascii) (by_ : string) (text : string) : string :=
  match text with
  | EmptyString => EmptyString
  | String x rest =>
      if Ascii.eqb x c then by_ +:+ replace_all c by_ rest
      else String x (replace_all c by_ rest)
  end.

Definition backslash : ascii := ascii_of_nat 92.

(** The replacement ['\\c']: a backslash and the character. *)
Definition escaped (c : ascii) : string :=
  String backslash (String c EmptyString).

(** [escapeMarkdown(text)]: nineteen replacements, the backslash first. *)
Definition escapeMarkdown (text : string) : string :=
  let text := replace_all backslash (escaped backslash) text in
  let text := replace_all "*" (escaped "*") text in
  let text := replace_all "_" (escaped "_") text in
  let text := replace_all "[" (escaped "[") text in
  let text := replace_all "]" (escaped "]") text in
  let text := replace_all "(" (escaped "(") text in
  let text := replace_all ")" (escaped ")") text in
  let text := replace_all "~" (escaped "~") text in
  let text := replace_all "`" (escaped "`") text in
  let text := replace_all ">" (escaped ">") text in
  let text := replace_all "#" (escaped "#") text in
  let text := replace_all "+" (escaped "+") text in
  let text := replace_all "-" (escaped "-") text in
  let text := replace_all "=" (escaped "=") text in
  let text := replace_all "|" (escaped "|") text in
  let text := replace_all "{" (escaped "{") text in
  let text := replace_all "}" (escaped "}") text in
  let text := replace_all "." (escaped ".") text in
  let text := replace_all "!" (escaped "!") text in
  text.

(** The characters that Telegram's Markdown reads as markup. *)
Definition special (c : ascii) : bool :=
  existsb (Ascii.eqb c)
    [backslash; "*"; "_"; "["; "]"; "("; ")"; "~"; "`"; ">"; "#"; "+"; "-";
     "="; "|"; "{"; "}"; "."; "!"]%char.

(** What a reader of the escaped text takes it for: a backslash makes
    the next character plain. *)
Fixpoint unescape (text : string) : string :=
  match text with
  | EmptyString => EmptyString
  | String x rest =>
      if Ascii.eqb x backslash then
        match rest with
        | EmptyString => EmptyString
        | String y rest' => String y (unescape rest')
        end
      else String x (unescape rest)
  end.

(** The escaping, character by character. *)
Fixpoint escape_each (text : string) : string :=
  match text with
  | EmptyString => EmptyString
  | String x rest =>
      (if special x then escaped x else String x EmptyString)
      +:+ escape_each rest
  end.

End TelegramNotifier.

(** ** RabbitMQSender.ts *)

Module RabbitMQSender.
Import Eff.

Record DekuSMSMessage := {
  sid : string;
  id : string;
  to : string;
  text : string;
}.

Inductive ReceiptStatus := sent | delivered | failed.

(** [type] is the constant ['SMS_TYPE_STATUS']. *)
Record DeliveryReceipt := {
  receipt_status : ReceiptStatus;
  receipt_sid : string;
}.

Record SendResult := {
  success : bool;
  messageId : option string;
  error : option string;
}.

(** A callback is a JavaScript function: called on a receipt, it
    returns or throws. *)
Definition DeliveryCallback : Type := DeliveryReceipt -> Completion Error unit.

(** The configuration as the constructor leaves it, the two optional
    fields filled with 5000 and 10 when absent. *)
Record RabbitMQConfig := {
  rabbitmqUrl : string;
  queueName : string;
  callbackQueue : string;
  reconnectDelayMs : Z;
  maxReconnectAttempts : nat;
}.

Inductive Timer :=
| ReconnectTimer
| GraceTimer (sid : string)      (* 60000 ms after a receipt *)
| ExpiryTimer (sid : string).    (* 300000 ms after a send *)

(** What the sender does to the outside: calls of amqplib, of the
    timers and of the callbacks, in the order they happen. *)
Inductive Event :=
| Connect (url : string)
| CreateChannel
| AssertQueue (name : string)
| Consume (name : string)
| SendToQueue (name : string) (m : DekuSMSMessage)
| OnceDrain
| Ack (deliveryTag : nat)
| Nack (deliveryTag : nat) (allUpTo requeue : bool)
| ChannelClose
| ConnectionClose
| SetTimeout (t : Timer) (ms : Z)
| ClearTimeout (t : Timer)
| Call (cb : DeliveryCallback) (r : DeliveryReceipt).

(** The fields of the class; [connectionModel], [channel] and
    [reconnectTimer] are [true] when the field is defined.  [trace] is
    the journal of the events. *)
Record Sender := {
  config : RabbitMQConfig;
  connectionModel : bool;
  channel : bool;
  isConnected : bool;
  isConnecting : bool;
  reconnectAttempts : nat;
  deliveryCallbacks : gmap string DeliveryCallback;
  reconnectTimer : bool;
  trace : list Event;
}.

Definition set_connectionModel (v : bool) (s : Sender) : Sender :=
  {| config := config s; connectionModel := v; channel := channel s;
     isConnected := isConnected s; isConnecting := isConnecting s;
     reconnectAttempts := reconnectAttempts s;
     deliveryCallbacks := deliveryCallbacks s;
     reconnectTimer := reconnectTimer s; trace := trace s |}.
Definition set_channel (v : bool) (s : Sender) : Sender :=
  {| config := config s; connectionModel := connectionModel s; channel := v;
     isConnected := isConnected s; isConnecting := isConnecting s;
     reconnectAttempts := reconnectAttempts s;
     deliveryCallbacks := deliveryCallbacks s;
     reconnectTimer := reconnectTimer s; trace := trace s |}.
Definition set_isConnected (v : bool) (s : Sender) : Sender :=
  {| config := config s; connectionModel := connectionModel s;
     channel := channel s; isConnected := v; isConnecting := isConnecting s;
     reconnectAttempts := reconnectAttempts s;
     deliveryCallbacks := deliveryCallbacks s;
     reconnectTimer := reconnectTimer s; trace := trace s |}.
Definition set_isConnecting (v : bool) (s : Sender) : Sender :=
  {| config := config s; connectionModel := connectionModel s;
     channel := channel s; isConnected := isConnected s; isConnecting := v;
     reconnectAttempts := reconnectAttempts s;
     deliveryCallbacks := deliveryCallbacks s;
     reconnectTimer := reconnectTimer s; trace := trace s |}.
Definition set_reconnectAttempts (v : nat) (s : Sender) : Sender :=
  {| config := config s; connectionModel := connectionModel s;
     channel := channel s; isConnected := isConnected s;
     isConnecting := isConnecting s; reconnectAttempts := v;
     deliveryCallbacks := deliveryCallbacks s;
     reconnectTimer := reconnectTimer s; trace := trace s |}.
Definition set_deliveryCallbacks (v : gmap string DeliveryCallback)
    (s : Sender) : Sender :=
  {| config := config s; connectionModel := connectionModel s;
     channel := channel s; isConnected := isConnected s;
     isConnecting := isConnecting s;
     reconnectAttempts := reconnectAttempts s; deliveryCallbacks := v;
     reconnectTimer := reconnectTimer s; trace := trace s |}.
Definition set_reconnectTimer (v : bool) (s : Sender) : Sender :=
  {| config := config s; connectionModel := connectionModel s;
     channel := channel s; isConnected := isConnected s;
     isConnecting := isConnecting s;
     reconnectAttempts := reconnectAttempts s;
     deliveryCallbacks := deliveryCallbacks s;
     reconnectTimer := v; trace := trace s |}.
Definition add_event (e : Event) (s : Sender) : Sender :=
  {| config := config s; connectionModel := connectionModel s;
     channel := channel s; isConnected := isConnected s;
     isConnecting := isConnecting s;
     reconnectAttempts := reconnectAttempts s;
     deliveryCallbacks := deliveryCallbacks s;
     reconnectTimer := reconnectTimer s; trace := trace s ++ [e] |}.

Definition emit (e : Event) : M Sender Error unit := modify (add_event e).

(** [new RabbitMQSender(config)] *)
Definition new_sender (url queue callbacks : string)
    (delay : option Z) (attempts : option nat) : Sender :=
  {| config := {| rabbitmqUrl := url; queueName := queue;
                  callbackQueue := callbacks;
                  reconnectDelayMs := default 5000 delay;
                  maxReconnectAttempts := default 10%nat attempts |};
     connectionModel := false; channel := false;
     isConnected := false; isConnecting := false;
     reconnectAttempts := 0%nat; deliveryCallbacks := ∅;
     reconnectTimer := false; trace := [] |}.

(** *** What the outside answers during one method call *)

(** A promise of amqplib, awaited. *)
Inductive Answer := Fulfils | Rejects (err : Error).

(** [channel.sendToQueue]: [true], [false] (write buffer full) or an
    exception. *)
Inductive Publish := Sent | BufferFull | PublishThrows (err : Error).

(** [ack] and [nack] are taken not to throw.  [close_event] says
    whether the connection emits ['close'] when its [close()] has
    completed: amqplib does, once the closing handshake is done; a test
    double whose [close] only resolves does not. *)
Record Broker := {
  amqp_connect : Answer;
  createChannel : Answer;
  assertQueue : string -> Answer;
  consume : Answer;
  sendToQueue : DekuSMSMessage -> Publish;
  channel_close : Answer;
  connection_close : Answer;
  close_event : bool;
  randomUUID_first : string;     (* the first call of randomUUID() *)
  randomUUID_second : string;    (* the second one, if there is one *)
}.

Definition await (a : Answer) : M Sender Error unit :=
  match a with
  | Fulfils => ret tt
  | Rejects err => throw err
  end.

(** [x || d] on numbers. *)
Definition or_default (x d : nat) : nat := if Nat.eqb x 0 then d else x.
Definition or_default_ms (x d : Z) : Z := if Z.eqb x 0 then d else x.

(** [scheduleReconnect()] *)
Definition scheduleReconnect : M Sender Error unit :=
  s <- get ;;
  if reconnectTimer s then ret tt
  else if (or_default (maxReconnectAttempts (config s)) 10 <=? reconnectAttempts s)%nat
  then ret tt
  else
    modify (set_reconnectAttempts (S (reconnectAttempts s))) ;;;
    emit (SetTimeout ReconnectTimer
            (or_default_ms (reconnectDelayMs (config s)) 5000)) ;;;
    modify (set_reconnectTimer true).

(** [handleDisconnect()], the handler of the connection's ['error'] and
    ['close'] events. *)
Definition handleDisconnect : M Sender Error unit :=
  modify (set_isConnected false) ;;;
  modify (set_channel false) ;;;
  modify (set_connectionModel false) ;;;
  scheduleReconnect.

(** [setupDeliveryReceiptListener()] *)
Definition setupDeliveryReceiptListener (b : Broker) : M Sender Error unit :=
  s <- get ;;
  if negb (channel s) then throw "Channel not initialized"
  else
    emit (Consume (callbackQueue (config s))) ;;;
    await (consume b).

(** [connect()].  The two listeners that it puts on the connection,
    for ['error'] and for ['close'], both run [handleDisconnect]; every
    connection that the sender holds has them, since [connect] is the
    only place that sets [connectionModel].  The listeners of the
    channel only log. *)
Definition connect (b : Broker) : M Sender Error unit :=
  s <- get ;;
  if isConnected s || isConnecting s then ret tt
  else
    modify (set_isConnecting true) ;;;
    try_catch
      (emit (Connect (rabbitmqUrl (config s))) ;;;
       await (amqp_connect b) ;;;
       modify (set_connectionModel true) ;;;
       emit CreateChannel ;;;
       await (createChannel b) ;;;
       modify (set_channel true) ;;;
       emit (AssertQueue (queueName (config s))) ;;;
       await (assertQueue b (queueName (config s))) ;;;
       emit (AssertQueue (callbackQueue (config s))) ;;;
       await (assertQueue b (callbackQueue (config s))) ;;;
       setupDeliveryReceiptListener b ;;;
       modify (set_isConnected true) ;;;
       modify (set_isConnecting false) ;;;
       modify (set_reconnectAttempts 0))
      (fun err =>
         modify (set_isConnecting false) ;;;
         scheduleReconnect ;;;
         throw ("Failed to connect to RabbitMQ: " +:+ err)).

(** The function given to [setTimeout] by [scheduleReconnect]; it runs
    only while the timer is pending.  [connect().catch(...)] swallows
    the rejection. *)
Definition reconnect_timer_fires (b : Broker) : M Sender Error unit :=
  s <- get ;;
  if reconnectTimer s then
    modify (set_reconnectTimer false) ;;;
    try_catch (connect b) (fun _ => ret tt)
  else ret tt.

(** *** The consumer of the callback queue *)

(** What [JSON.parse(msg.content.toString())] makes of the content. *)
Inductive Content :=
| NotJson (err : Error)              (* JSON.parse throws *)
| JsonNull                           (* the value null *)
| JsonReceipt (r : DeliveryReceipt)  (* a receipt: an object with a string [sid] *)
| JsonOther.                         (* any other value: no string [sid] *)

Record ConsumeMessage := {
  deliveryTag : nat;
  content : Content;
}.

(** [this.channel?.ack(msg)] and [this.channel?.nack(msg, false, true)] *)
Definition ack (msg : ConsumeMessage) : M Sender Error unit :=
  s <- get ;;
  when (channel s) (emit (Ack (deliveryTag msg))).
Definition nack_requeue (msg : ConsumeMessage) : M Sender Error unit :=
  s <- get ;;
  when (channel s) (emit (Nack (deliveryTag msg) false true)).

(** A call of a callback: the call is recorded, its exception is the
    exception of the caller. *)
Definition call (cb : DeliveryCallback) (r : DeliveryReceipt)
    : M Sender Error unit :=
  emit (Call cb r) ;;;
  (fun s => (cb r, s)).

(** The function given to [channel.consume]; [None] is [null]. *)
Definition on_message (msg : option ConsumeMessage) : M Sender Error unit :=
  match msg with
  | None => ret tt
  | Some msg =>
      try_catch
        (match content msg with
         | NotJson err => throw err
         | JsonNull => throw "Cannot read properties of null (reading 'sid')"
         | JsonOther => ret tt
         | JsonReceipt receipt =>
             s <- get ;;
             match deliveryCallbacks s !! receipt_sid receipt with
             | Some callback =>
                 call callback receipt ;;;
                 emit (SetTimeout (GraceTimer (receipt_sid receipt)) 60000)
             | None => ret tt
             end
         end ;;;
         ack msg)
        (fun _ => nack_requeue msg)
  end.

(** The function given to [setTimeout] in [on_message]. *)
Definition grace_timer_fires (sid : string) : M Sender Error unit :=
  s <- get ;;
  modify (set_deliveryCallbacks (delete sid (deliveryCallbacks s))).

(** The function given to [setTimeout] in [sendSMS]. *)
Definition expiry_timer_fires (sid : string) : M Sender Error unit :=
  s <- get ;;
  when (bool_decide (is_Some (deliveryCallbacks s !! sid)))
       (modify (set_deliveryCallbacks (delete sid (deliveryCallbacks s)))).

(** *** [sendSMS] *)

Definition is_digit (c : ascii) : bool :=
  (48 <=? nat_of_ascii c)%nat && (nat_of_ascii c <=? 57)%nat.
Definition is_digit_1_9 (c : ascii) : bool :=
  (49 <=? nat_of_ascii c)%nat && (nat_of_ascii c <=? 57)%nat.

Fixpoint all_digits (s : string) : bool :=
  match s with
  | EmptyString => true
  | String c r => is_digit c && all_digits r
  end.

(** [validateE164]: [/^\+[1-9]\d{1,14}$/.test(phoneNumber)]. *)
Definition validateE164 (phoneNumber : string) : bool :=
  match phoneNumber with
  | String "+" (String d rest) =>
      is_digit_1_9 d && all_digits rest
      && (1 <=? String.length rest)%nat && (String.length rest <=? 14)%nat
  | _ => false
  end.

(** The promise that [sendSMS] returns: resolved, or pending until the
    channel emits ['drain'] and then resolved with the value. *)
Inductive Promise (A : Type) :=
| Resolved (a : A)
| OnDrain (a : A).
Global Arguments Resolved {A} a.
Global Arguments OnDrain {A} a.

(** The channel emits ['drain']. *)
Definition drain {A} (p : Promise A) : Promise A :=
  match p with
  | OnDrain a => Resolved a
  | Resolved a => Resolved a
  end.

Definition settled {A} (p : Promise A) : option A :=
  match p with
  | Resolved a => Some a
  | OnDrain _ => None
  end.

Definition failure (err : string) : SendResult :=
  {| success := false; messageId := None; error := Some err |}.
Definition accepted (messageSid : string) : SendResult :=
  {| success := true; messageId := Some messageSid; error := None |}.

(** [sid || randomUUID()]: an absent and an empty [sid] are falsy. *)
Definition sid_or_uuid (b : Broker) (sid : option string) : string :=
  match sid with
  | Some s => if String.eqb s "" then randomUUID_second b else s
  | None => randomUUID_second b
  end.

(** The [DekuSMSMessage] that a call would publish. *)
Definition envelope (b : Broker) (to_ text_ : string) (sid_ : option string)
    : DekuSMSMessage :=
  {| sid := sid_or_uuid b sid_; id := randomUUID_first b;
     to := to_; text := text_ |}.

Definition sendSMS (b : Broker) (to_ text_ : string) (sid_ : option string)
    (onDelivery : option DeliveryCallback)
    : M Sender Error (Promise SendResult) :=
  if negb (validateE164 to_) then
    ret (Resolved (failure ("Invalid phone number format: " +:+ to_ +:+
             ". Must be E.164 format (e.g., +15551234567)")))
  else
    s <- get ;;
    refused <-
      (if negb (isConnected s) then
         try_catch (connect b ;;; ret None)
           (fun err => ret (Some (failure ("Not connected to RabbitMQ: " +:+ err))))
       else ret None) ;;
    match refused with
    | Some result => ret (Resolved result)
    | None =>
        s <- get ;;
        if negb (channel s) then
          ret (Resolved (failure "RabbitMQ channel not available"))
        else
          let message := envelope b to_ text_ sid_ in
          let messageSid := sid message in
          try_catch
            (match onDelivery with
             | Some cb =>
                 s <- get ;;
                 modify (set_deliveryCallbacks
                           (<[messageSid := cb]> (deliveryCallbacks s))) ;;;
                 emit (SetTimeout (ExpiryTimer messageSid) 300000)
             | None => ret tt
             end ;;;
             emit (SendToQueue (queueName (config s)) message) ;;;
             match sendToQueue b message with
             | PublishThrows err => throw err
             | BufferFull =>
                 emit OnceDrain ;;;
                 ret (OnDrain (accepted messageSid))
             | Sent => ret (Resolved (accepted messageSid))
             end)
            (fun err =>
               match onDelivery with
               | Some _ =>
                   s <- get ;;
                   modify (set_deliveryCallbacks
                             (delete messageSid (deliveryCallbacks s)))
               | None => ret tt
               end ;;;
               ret (Resolved (failure err)))
    end.

(** [getStatus()] *)
Record StatusReport := {
  connected : bool;
  attempts : nat;
  pendingCallbacks : nat;
}.

Definition getStatus (s : Sender) : StatusReport :=
  {| connected := isConnected s;
     attempts := reconnectAttempts s;
     pendingCallbacks := size (deliveryCallbacks s) |}.

(** [isReady()] *)
Definition isReady (s : Sender) : bool := isConnected s && channel s.

(** [close()].  When [connectionModel.close()] has completed and the
    connection emits ['close'], the listener that [connect] installed
    runs [handleDisconnect] before [close] goes on after its [await]. *)
Definition close (b : Broker) : M Sender Error unit :=
  s <- get ;;
  when (reconnectTimer s)
       (emit (ClearTimeout ReconnectTimer) ;;;
        modify (set_reconnectTimer false)) ;;;
  modify (set_deliveryCallbacks ∅) ;;;
  try_catch
    (s <- get ;;
     when (channel s)
          (emit ChannelClose ;;;
           await (channel_close b) ;;;
           modify (set_channel false)) ;;;
     s <- get ;;
     when (connectionModel s)
          (emit ConnectionClose ;;;
           await (connection_close b) ;;;
           when (close_event b) handleDisconnect ;;;
           modify (set_connectionModel false)) ;;;
     modify (set_isConnected false))
    (fun _ => ret tt).

(** *** Notions used to state the properties of the sender *)

(** The sender with more events in its journal and nothing else
    changed. *)
Definition after (evs : list Event) (s : Sender) : Sender :=
  {| config := config s; connectionModel := connectionModel s;
     channel := channel s; isConnected := isConnected s;
     isConnecting := isConnecting s;
     reconnectAttempts := reconnectAttempts s;
     deliveryCallbacks := deliveryCallbacks s;
     reconnectTimer := reconnectTimer s; trace := trace s ++ evs |}.

(** The events of a step from [s] to [s']. *)
Definition new_events (s s' : Sender) : list Event :=
  drop (length (trace s)) (trace s').

Definition is_publish (e : Event) : bool :=
  match e with SendToQueue _ _ => true | _ => false end.
Definition is_connect (e : Event) : bool :=
  match e with Connect _ => true | _ => false end.
Definition is_reconnect_schedule (e : Event) : bool :=
  match e with SetTimeout ReconnectTimer _ => true | _ => false end.

Definition count (p : Event -> bool) (evs : list Event) : nat :=
  length (List.filter p evs).

(** The reconnect timer fires again and again, a broker answering each
    time.  A firing without a pending timer does nothing, so the list
    may be longer than the timers that really fire. *)
Fixpoint timer_fires (bs : list Broker) : M Sender Error unit :=
  match bs with
  | [] => ret tt
  | b :: bs' => reconnect_timer_fires b ;;; timer_fires bs'
  end.

Definition refuses (b : Broker) : Prop :=
  exists err, amqp_connect b = Rejects err.

(** The format in the words of the specification: a plus sign followed
    by 2 to 15 digits, the first of which is from 1 to 9. *)
Definition E164 (s : string) : Prop :=
  exists digits : list ascii,
    s = String "+" (string_of_list_ascii digits)
    /\ (2 <= length digits <= 15)%nat
    /\ Forall (fun c => is_digit c = true) digits
    /\ (exists d, head digits = Some d /\ d <> "0"%char).

(** The state in which [sendSMS] goes on after "Ensure connection":
    the sender was connected, or [connect] succeeded. *)
Definition ensured (b : Broker) (s s1 : Sender) : Prop :=
  (isConnected s = true /\ s1 = s)
  \/ (isConnected s = false /\ connect b s = (Return tt, s1)).

(** The call of [sendSMS] publishes: its events have the envelope sent
    to the queue. *)
Definition publishes (b : Broker) (to_ text_ : string) (sid_ : option string)
    (onDelivery : option DeliveryCallback) (s : Sender) : Prop :=
  exists q, SendToQueue q (envelope b to_ text_ sid_)
            ∈ new_events s (snd (sendSMS b to_ text_ sid_ onDelivery s)).

(** The registration of the callback before the publish and its removal
    after an exception. *)
Definition register (messageSid : string) (onDelivery : option DeliveryCallback)
    (s : Sender) : Sender :=
  match onDelivery with
  | Some cb =>
      add_event (SetTimeout (ExpiryTimer messageSid) 300000)
        (set_deliveryCallbacks (<[messageSid := cb]> (deliveryCallbacks s)) s)
  | None => s
  end.
Definition unregister (messageSid : string)
    (onDelivery : option DeliveryCallback) (s : Sender) : Sender :=
  match onDelivery with
  | Some _ => set_deliveryCallbacks (delete messageSid (deliveryCallbacks s)) s
  | None => s
  end.

(** The value a promise of [sendSMS] resolves with, at once or when the
    drain signal comes. *)
Definition resolves_with {A} (p : Promise A) : A :=
  match p with Resolved a => a | OnDrain a => a end.

(** *** A broker and a sender to run the methods on *)

(** A broker that accepts everything and answers [publish] to
    [sendToQueue]. *)
Definition a_broker (publish : Publish) : Broker :=
  {| amqp_connect := Fulfils; createChannel := Fulfils;
     assertQueue := fun _ => Fulfils; consume := Fulfils;
     sendToQueue := fun _ => publish;
     channel_close := Fulfils; connection_close := Fulfils;
     close_event := true;
     randomUUID_first := "7b0c5f0e-0000-4000-8000-000000000001";
     randomUUID_second := "7b0c5f0e-0000-4000-8000-000000000002" |}.

(** A broker that refuses connections. *)
Definition a_dead_broker : Broker :=
  {| amqp_connect := Rejects "Connection failed"; createChannel := Fulfils;
     assertQueue := fun _ => Fulfils; consume := Fulfils;
     sendToQueue := fun _ => Sent;
     channel_close := Fulfils; connection_close := Fulfils;
     close_event := true;
     randomUUID_first := "7b0c5f0e-0000-4000-8000-000000000001";
     randomUUID_second := "7b0c5f0e-0000-4000-8000-000000000002" |}.

(** The sender of the test suite, new and after [connect()]. *)
Definition a_sender : Sender :=
  new_sender "amqp://localhost:5672" "sms_outbound" "sms_callbacks" None None.
Definition a_connected_sender : Sender := snd (connect (a_broker Sent) a_sender).

(** Callbacks: one that returns and one that throws. *)
Definition a_callback : DeliveryCallback := fun _ => Return tt.
Definition a_throwing_callback : DeliveryCallback :=
  fun _ => Throw "Failed to update message status: Message 7 not found".

(** A broker on which closing the channel fails, as in the test
    "should handle close errors gracefully". *)
Definition a_broker_failing_close : Broker :=
  {| amqp_connect := Fulfils; createChannel := Fulfils;
     assertQueue := fun _ => Fulfils; consume := Fulfils;
     sendToQueue := fun _ => Sent;
     channel_close := Rejects "Close failed"; connection_close := Fulfils;
     close_event := true;
     randomUUID_first := "7b0c5f0e-0000-4000-8000-000000000001";
     randomUUID_second := "7b0c5f0e-0000-4000-8000-000000000002" |}.

(** A delivered receipt for the correlation id [X], as the broker hands
    it to the consumer. *)
Definition a_receipt : DeliveryReceipt :=
  {| receipt_status := delivered; receipt_sid := "X" |}.
Definition a_receipt_message : ConsumeMessage :=
  {| deliveryTag := 7; content := JsonReceipt a_receipt |}.

End RabbitMQSender.

(** * Properties *)

(** ** The monad *)

Section EffFacts.
Import Eff.
Context {S E A : Type}.

(** A [try] whose handler returns never throws. *)
Lemma try_catch_returns (m : M S E A) (h : E -> A) (s : S) :
  exists a s', try_catch m (fun e => ret (h e)) s = (Return a, s').
Proof.
  unfold try_catch, ret. destruct (m s) as [[a|e] s']; eauto.
Qed.

End EffFacts.

(** ** RoutingHandler *)

Section RoutingFacts.
Import RoutingHandler.

Lemma rule_default_catch_all : catch_all rule_default.
Proof. repeat split. Qed.

Lemma addRule_before_last front last rule :
  addRule rule (front ++ [last]) = (front ++ [rule]) ++ [last].
Proof.
  unfold addRule. rewrite length_app. simpl.
  replace (length front + 1 - 1)%nat with (length front) by lia.
  rewrite take_app_length, drop_app_length.
  now rewrite <- app_assoc.
Qed.

(** Every rule list of a handler ends with the default rule. *)
Lemma reachable_ends_with_default rules :
  reachable rules -> exists front, rules = front ++ [rule_default].
Proof.
  induction 1 as [|rule rules _ [front ->]|rules _ _].
  - now exists [rule_urgent; rule_important; rule_question; rule_spam].
  - exists (front ++ [rule]). apply addRule_before_last.
  - now exists [rule_urgent; rule_important; rule_question; rule_spam].
Qed.

(** The loop over a list that has a rule whose condition holds: it
    returns the first such rule. *)
Lemma first_match_split rules message rule :
  first_match rules message = Some rule ->
  exists before after,
    rules = before ++ rule :: after
    /\ Forall (fun r => condition r message = false) before
    /\ condition rule message = true.
Proof.
  induction rules as [|r rules IH]; simpl; [discriminate|].
  destruct (condition r message) eqn:Hc.
  - intros [= <-]. exists [], rules. auto.
  - intros H. destruct (IH H) as (before & after & -> & Hb & Hr).
    exists (r :: before), after. auto.
Qed.

Lemma first_match_catch_all front last message :
  condition last message = true ->
  is_Some (first_match (front ++ [last]) message).
Proof.
  intros Hl. induction front as [|r front IH]; simpl.
  - rewrite Hl. eauto.
  - destruct (condition r message); eauto.
Qed.

(** C1. For every message and every rule list a handler can hold, the
    rule evaluation returns a decision: the list ends with a catch-all
    rule (condition always true, priority normal, action queue), so the
    loop of [findMatchingRule] returns the first rule whose condition
    holds and the fallback after the loop is never needed; and
    [process], which uses it, returns a result and throws nothing. *)
Theorem findMatchingRule_always_decides rules message :
  reachable rules ->
  (exists front last, rules = front ++ [last] /\ catch_all last)
  /\ (exists before rule after,
        rules = before ++ rule :: after
        /\ Forall (fun r => condition r message = false) before
        /\ condition rule message = true
        /\ first_match rules message = Some rule
        /\ findMatchingRule rules message = rule)
  /\ (forall w db, exists result db',
        process w rules message db = (Eff.Return result, db')).
Proof.
  intros Hr. destruct (reachable_ends_with_default _ Hr) as [front ->].
  split; [|split].
  - exists front, rule_default. split; [reflexivity|apply rule_default_catch_all].
  - destruct (first_match_catch_all front rule_default message eq_refl)
      as [rule Hm].
    destruct (first_match_split _ _ _ Hm) as (before & after & Heq & Hb & Hc).
    exists before, rule, after. unfold findMatchingRule. rewrite Hm. auto.
  - intros w db. unfold process. apply try_catch_returns.
Qed.

Lemma findMatchingRule_always_decides_witness :
  reachable (addRule rule_spam new_rules)
  /\ exists result db',
       process
         {| now_received := 1; now_processed := 2; now_inserted := 3;
            toLocaleString := fun _ => "";
            sendNotification := fun _ => true;
            sendTemplatedResponse := fun _ _ _ _ _ =>
              Eff.ret {| success := true; response_id := None;
                         response_error := None |} |}
         (addRule rule_spam new_rules)
         {| sender := "+15550000001"; content := "URGENT: server down";
            channel := sms; timestamp := None; metadata := None |}
         QueueManager.empty_db
       = (Eff.Return result, db').
Proof.
  split.
  - apply reach_add, reach_new.
  - apply (findMatchingRule_always_decides
             (addRule rule_spam new_rules)
             {| sender := "+15550000001"; content := "URGENT: server down";
                channel := sms; timestamp := None; metadata := None |}
             (reach_add _ _ reach_new)).
Defined.

End RoutingFacts.

(** ** QueueManager *)

Section QueueFacts.
Import Eff QueueManager.

Lemma well_formed_empty : well_formed empty_db.
Proof. constructor. Qed.

Lemma below_counter_untouched (n : Z) (f : Message -> Message) l :
  Forall (fun m => id m <= n) l ->
  map (fun m => if id m =? n + 1 then f m else m) l = l
  /\ List.filter (fun m => id m =? n + 1) l = [].
Proof.
  induction 1 as [|m l Hm _ [IH1 IH2]]; simpl; [easy|].
  destruct (Z.eqb_spec (id m) (n + 1)); [lia|].
  now rewrite IH1, IH2.
Qed.

(** An insertion gives the row the next rowid and keeps the table well
    formed. *)
Lemma insert_run_well_formed sd ct p st ts a md db :
  well_formed db ->
  well_formed (snd (insert_run sd ct p st ts a md db)).
Proof.
  unfold well_formed, insert_run. simpl. intros H.
  apply Forall_app. split.
  - eapply Forall_impl; [exact H|]. simpl. intros; lia.
  - repeat constructor. simpl. lia.
Qed.

Lemma update_run_well_formed s rowid db :
  well_formed db -> well_formed (snd (update_run s rowid db)).
Proof.
  unfold well_formed, update_run. simpl. intros H.
  apply Forall_map. eapply Forall_impl; [exact H|].
  simpl. intros m Hm. now destruct (id m =? rowid).
Qed.

(** A status change of the row inserted last. *)
Lemma updateStatus_last_inserted s row db :
  Forall (fun m => id m <= id row - 1) (rows db) ->
  updateStatus (id row) s
    {| rows := rows db ++ [row]; last_rowid := id row;
       journal := journal db ++ [InsertRow row] |}
  = (Return tt,
     {| rows := rows db ++ [set_status s row]; last_rowid := id row;
        journal := journal db ++ [InsertRow row; UpdateStatus s (id row)] |}).
Proof.
  intros H.
  destruct (below_counter_untouched (id row - 1) (set_status s) _ H) as [H1 H2].
  replace (id row - 1 + 1) with (id row) in H1, H2 by lia.
  unfold updateStatus, try_catch, bind, update_run. simpl.
  rewrite List.filter_app, H2, map_app, H1. simpl.
  rewrite Z.eqb_refl. simpl. now rewrite <- app_assoc.
Qed.

End QueueFacts.

Section ProcessFacts.
Import Eff RoutingHandler.

Lemma spam_rule_matches message :
  content message = "Free prize! Click here!" ->
  findMatchingRule new_rules message = rule_spam.
Proof.
  destruct message as [sd ct ch ts md]. simpl. intros ->. reflexivity.
Qed.

(** C9. A message whose content is "Free prize! Click here!" is
    decided low priority, ignore; [process] returns that decision, and
    the row it stores for the message is resolved: the only writes are
    the insertion of the row as pending and one change of its status to
    resolved, with no change to processing in between. *)
Theorem process_spam_resolved_directly w message db :
  QueueManager.well_formed db ->
  content message = "Free prize! Click here!" ->
  let rule := findMatchingRule new_rules message in
  let rowid := QueueManager.last_rowid db + 1 in
  let row st :=
    {| QueueManager.id := rowid;
       QueueManager.sender := sender message;
       QueueManager.content := "Free prize! Click here!";
       QueueManager.priority := Low;
       QueueManager.status := st;
       QueueManager.timestamp := now_inserted w;
       QueueManager.routing_action := Ignore;
       QueueManager.metadata := Some (queue_metadata w message) |} in
  priority rule = Low /\ action rule = Ignore
  /\ exists db',
       process w new_rules message db
       = (Return {| messageId := rowid; result_action := Ignore;
                    result_priority := Low; notified := false;
                    responded := false; error := None |}, db')
       /\ QueueManager.getMessage rowid db' = Some (row Resolved)
       /\ QueueManager.rows db' = QueueManager.rows db ++ [row Resolved]
       /\ QueueManager.journal db'
          = QueueManager.journal db
            ++ [QueueManager.InsertRow (row Pending);
                QueueManager.UpdateStatus Resolved rowid].
Proof.
  intros Hwf Hc rule rowid row. subst rule.
  rewrite (spam_rule_matches _ Hc). split; [reflexivity|split; [reflexivity|]].
  pose proof (updateStatus_last_inserted Resolved (row Pending) db) as Hup.
  simpl in Hup. replace (rowid - 1) with (QueueManager.last_rowid db) in Hup
    by (subst rowid; lia).
  specialize (Hup Hwf).
  eexists. split; [|split; [|split]].
  - unfold process, try_catch, bind. rewrite (spam_rule_matches _ Hc).
    unfold QueueManager.addToQueue, try_catch, QueueManager.insert_run.
    simpl. rewrite Hc. fold rowid. unfold QueueManager.markResolved.
    unfold row in Hup. rewrite Hup. reflexivity.
  - subst row rowid. unfold QueueManager.getMessage. simpl.
    rewrite List.filter_app.
    destruct (below_counter_untouched (QueueManager.last_rowid db) id _ Hwf)
      as [_ ->].
    simpl. now rewrite Z.eqb_refl.
  - reflexivity.
  - reflexivity.
Qed.

Lemma process_spam_resolved_directly_witness :
  exists db',
    process
      {| now_received := 1; now_processed := 2; now_inserted := 3;
         toLocaleString := fun _ => "";
         sendNotification := fun _ => true;
         sendTemplatedResponse := fun _ _ _ _ _ =>
           ret {| success := true; response_id := None;
                  response_error := None |} |}
      new_rules
      {| sender := "+15550000001"; content := "Free prize! Click here!";
         channel := sms; timestamp := None; metadata := None |}
      QueueManager.empty_db
    = (Return {| messageId := 1; result_action := Ignore;
                 result_priority := Low; notified := false;
                 responded := false; error := None |}, db')
    /\ QueueManager.status <$> QueueManager.getMessage 1 db' = Some Resolved.
Proof.
  destruct (process_spam_resolved_directly
              {| now_received := 1; now_processed := 2; now_inserted := 3;
                 toLocaleString := fun _ => "";
                 sendNotification := fun _ => true;
                 sendTemplatedResponse := fun _ _ _ _ _ =>
                   ret {| success := true; response_id := None;
                          response_error := None |} |}
              {| sender := "+15550000001";
                 content := "Free prize! Click here!";
                 channel := sms; timestamp := None; metadata := None |}
              QueueManager.empty_db
              ltac:(constructor) eq_refl) as (_ & _ & db' & H1 & H2 & _).
  exists db'. split; [exact H1|].
  exact (f_equal (fmap QueueManager.status) H2).
Defined.

End ProcessFacts.

Section GetQueueFacts.
Import Eff QueueManager.

(** The answer of SQLite to the text that [getQueue] builds. *)
Lemma sqlite_all_build_query f table :
  let sel := order_by_ts_desc (List.filter (passes f) table) in
  sqlite_all (build_query f) table =
  match truthy_num (f_limit f), truthy_num (f_offset f) with
  | None, None => Return sel
  | Some n, None =>
      if sqlite_integer n then Return (limit_offset n 0 sel)
      else Throw "datatype mismatch"
  | Some n, Some k =>
      if sqlite_integer n && sqlite_integer k
      then Return (limit_offset n k sel)
      else Throw "datatype mismatch"
  | None, Some _ => Throw (syntax_error_near "OFFSET")
  end.
Proof.
  destruct f as [st pr ac se li off].
  unfold build_query, passes, append, sqlite_all. simpl.
  destruct st, pr, ac, (truthy_str se), (truthy_num li), (truthy_num off);
    simpl; try reflexivity;
    (erewrite List.filter_ext;
     [reflexivity
     |intros m; simpl; rewrite ?andb_true_r, ?andb_assoc; reflexivity]).
Qed.

Lemma getQueue_outcome f db :
  let sel := order_by_ts_desc (List.filter (passes f) (rows db)) in
  getQueue f db =
  (match truthy_num (f_limit f), truthy_num (f_offset f) with
   | None, None => Return sel
   | Some n, None =>
       if sqlite_integer n then Return (limit_offset n 0 sel)
       else Throw "Failed to retrieve queue: datatype mismatch"
   | Some n, Some k =>
       if sqlite_integer n && sqlite_integer k
       then Return (limit_offset n k sel)
       else Throw "Failed to retrieve queue: datatype mismatch"
   | None, Some _ =>
       Throw ("Failed to retrieve queue: " +:+ syntax_error_near "OFFSET")
   end, db).
Proof.
  unfold getQueue, try_catch. rewrite sqlite_all_build_query.
  destruct (truthy_num (f_limit f)) as [n|],
           (truthy_num (f_offset f)) as [k|]; try reflexivity.
  - destruct (sqlite_integer n && sqlite_integer k); reflexivity.
  - destruct (sqlite_integer n); reflexivity.
Qed.

(** The sort neither loses nor invents rows, and puts them newest
    first. *)
Lemma insert_desc_Permutation m l : Permutation (insert_desc m l) (m :: l).
Proof.
  induction l as [|x l IH]; simpl; [reflexivity|].
  destruct (timestamp x <=? timestamp m); [reflexivity|].
  rewrite IH. apply perm_swap.
Qed.

Lemma order_by_ts_desc_Permutation l : Permutation (order_by_ts_desc l) l.
Proof.
  induction l as [|m l IH]; simpl; [reflexivity|].
  rewrite insert_desc_Permutation. now constructor.
Qed.

Lemma insert_desc_descending m l :
  descending l -> descending (insert_desc m l).
Proof.
  unfold descending. induction 1 as [|x l Hs IH Hh]; simpl.
  - repeat constructor.
  - destruct (Z.leb_spec (timestamp x) (timestamp m)).
    + repeat constructor; assumption.
    + constructor; [exact IH|].
      destruct Hh as [|y l Hy]; simpl.
      * constructor. lia.
      * destruct (Z.leb_spec (timestamp y) (timestamp m));
          constructor; lia.
Qed.

Lemma order_by_ts_desc_descending l : descending (order_by_ts_desc l).
Proof.
  induction l as [|m l IH]; simpl; [constructor|].
  now apply insert_desc_descending.
Qed.

(** Without limit and offset the answer is exactly the rows that pass
    the filters, newest first (an empty list when none passes). *)
Lemma getQueue_filters_only f db :
  truthy_num (f_limit f) = None -> truthy_num (f_offset f) = None ->
  exists l, getQueue f db = (Return l, db)
            /\ descending l
            /\ Permutation l (List.filter (passes f) (rows db)).
Proof.
  intros Hl Ho. rewrite getQueue_outcome, Hl, Ho.
  eexists. split; [reflexivity|].
  split; [apply order_by_ts_desc_descending|apply order_by_ts_desc_Permutation].
Qed.

(** With a limit the call returns, whatever the offset, both being
    numbers that SQLite takes for a limit and an offset. *)
Lemma getQueue_with_limit f db n :
  truthy_num (f_limit f) = Some n -> sqlite_integer n = true ->
  from_option sqlite_integer true (f_offset f) = true ->
  exists l, getQueue f db = (Return l, db).
Proof.
  intros Hl Hn Ho. rewrite getQueue_outcome, Hl, Hn.
  unfold truthy_num. destruct (f_offset f) as [k|]; [|eauto].
  destruct (k =? 0); [eauto|]. cbn in Ho. rewrite Ho. eauto.
Qed.

(** An offset without a limit: [prepare] refuses the text and the method
    throws, whatever the table holds. *)
Lemma getQueue_offset_without_limit f db k :
  truthy_num (f_limit f) = None -> truthy_num (f_offset f) = Some k ->
  getQueue f db
  = (Throw ("Failed to retrieve queue: " +:+ syntax_error_near "OFFSET"), db).
Proof. intros Hl Ho. now rewrite getQueue_outcome, Hl, Ho. Qed.

(** C8. A call of [getQueue] with an offset and without a limit (the
    limit absent or 0), such as [getQueue({ offset: 1 })], does not
    return the list of the matching rows: whatever the other filters
    and whatever the table holds, it throws
    [Failed to retrieve queue: near OFFSET: syntax error]. *)
Theorem getQueue_offset_without_limit_throws f db k :
  truthy_num (f_limit f) = None -> f_offset f = Some k -> k <> 0 ->
  getQueue f db
  = (Throw ("Failed to retrieve queue: " +:+ syntax_error_near "OFFSET"), db).
Proof.
  intros Hl Ho Hk. apply (getQueue_offset_without_limit f db k); [exact Hl|].
  unfold truthy_num. rewrite Ho.
  destruct (Z.eqb_spec k 0); [contradiction|reflexivity].
Qed.

Lemma getQueue_offset_without_limit_throws_witness :
  let db := snd (addToQueue 1700000000000 "Urgent message" Urgent Notify
                   "+1111111111" None empty_db) in
  length (rows db) = 1%nat
  /\ getQueue {| f_status := None; f_priority := None;
                 f_routing_action := None; f_sender := None;
                 f_limit := None; f_offset := Some 1 |} db
     = (Throw ("Failed to retrieve queue: " +:+ syntax_error_near "OFFSET"), db).
Proof.
  intros db. split; [reflexivity|].
  apply (getQueue_offset_without_limit_throws _ db 1);
    [reflexivity|reflexivity|lia].
Defined.

End GetQueueFacts.

(** ** RabbitMQSender *)

Section SenderFacts.
Import Eff RabbitMQSender.

Ltac run :=
  cbv [connect scheduleReconnect handleDisconnect setupDeliveryReceiptListener
       reconnect_timer_fires on_message ack nack_requeue call
       grace_timer_fires expiry_timer_fires close sendSMS
       bind ret throw try_catch get gets modify when emit await
       set_connectionModel set_channel set_isConnected set_isConnecting
       set_reconnectAttempts set_deliveryCallbacks set_reconnectTimer
       add_event];
  cbn [config connectionModel channel isConnected isConnecting
       reconnectAttempts deliveryCallbacks reconnectTimer trace
       negb orb andb fst snd].

Lemma after_nil s : after [] s = s.
Proof. destruct s. unfold after. simpl. now rewrite app_nil_r. Qed.

Lemma new_events_after evs s : new_events s (after evs s) = evs.
Proof. unfold new_events, after. simpl. apply drop_app_length. Qed.

Lemma new_events_refl s : new_events s s = [].
Proof. unfold new_events. apply drop_all. Qed.

(** *** Reconnection *)

(** Once the attempts have reached the bound, [scheduleReconnect]
    schedules nothing: the state is left as it is. *)
Lemma scheduleReconnect_exhausted s :
  (or_default (maxReconnectAttempts (config s)) 10 <= reconnectAttempts s)%nat ->
  scheduleReconnect s = (Return tt, s).
Proof.
  intros H. run. destruct (reconnectTimer s); [reflexivity|].
  destruct (Nat.leb_spec (or_default (maxReconnectAttempts (config s)) 10)
              (reconnectAttempts s)); [reflexivity|exfalso; lia].
Qed.

(** Without a pending timer nothing fires. *)
Lemma timer_fires_idle bs s :
  reconnectTimer s = false -> timer_fires bs s = (Return tt, s).
Proof.
  intros H. induction bs as [|b bs IH]; simpl; [reflexivity|].
  run. rewrite H. exact IH.
Qed.

(** C3. With [maxReconnectAttempts = 2] and a broker that refuses every
    connection: after the failure of the first [connect()], two
    reconnections are scheduled while the timer fires, three connections
    are attempted in all, and then no timer is pending, so that nothing
    more happens however often a timer would fire; [getStatus()] then
    reports not connected with 2 attempts, and in every state in which
    it reports 2 attempts [scheduleReconnect] schedules nothing. *)
Theorem reconnect_stops_after_two_attempts url q cq delay b0 bs :
  refuses b0 -> Forall refuses bs -> (2 <= length bs)%nat ->
  let s0 := new_sender url q cq delay (Some 2%nat) in
  exists err s1 s2,
    connect b0 s0 = (Throw err, s1)
    /\ count is_reconnect_schedule (trace s1) = 1%nat
    /\ timer_fires bs s1 = (Return tt, s2)
    /\ count is_reconnect_schedule (trace s2) = 2%nat
    /\ count is_connect (trace s2) = 3%nat
    /\ reconnectTimer s2 = false
    /\ getStatus s2
       = {| connected := false; attempts := 2; pendingCallbacks := 0 |}
    /\ (forall bs', timer_fires bs' s2 = (Return tt, s2))
    /\ (forall s, config s = config s0 -> attempts (getStatus s) = 2%nat ->
                  scheduleReconnect s = (Return tt, s)).
Proof.
  intros [e0 H0] Hbs Hlen s0.
  destruct bs as [|b1 [|b2 bs]]; simpl in Hlen; try lia.
  apply Forall_cons in Hbs as [[e1 H1] Hbs].
  apply Forall_cons in Hbs as [[e2 H2] _].
  do 3 eexists.
  split; [subst s0; unfold new_sender; run; rewrite H0; run; reflexivity|].
  split; [reflexivity|].
  split.
  { simpl. run. rewrite H1. run. rewrite H2. run.
    apply timer_fires_idle. reflexivity. }
  repeat split.
  - intros bs'. now apply timer_fires_idle.
  - intros s Hc Ha. apply scheduleReconnect_exhausted.
    rewrite Hc. subst s0. simpl in *. rewrite Ha. apply le_n.
Qed.

Lemma reconnect_stops_after_two_attempts_witness :
  let b := a_dead_broker in
  let s0 := new_sender "amqp://localhost:5672" "sms_outbound" "sms_callbacks"
              (Some 100) (Some 2%nat) in
  exists s2,
    timer_fires [b; b; b; b] (snd (connect b s0)) = (Return tt, s2)
    /\ count is_reconnect_schedule (trace s2) = 2%nat
    /\ count is_connect (trace s2) = 3%nat
    /\ attempts (getStatus s2) = 2%nat.
Proof.
  intros b s0.
  destruct (reconnect_stops_after_two_attempts
              "amqp://localhost:5672" "sms_outbound" "sms_callbacks"
              (Some 100) b [b; b; b; b])
    as (err & s1 & s2 & H1 & _ & H2 & H3 & H4 & _ & H5 & _).
  - exists "Connection failed". reflexivity.
  - repeat constructor; exists "Connection failed"; reflexivity.
  - simpl. lia.
  - exists s2. fold s0 in H1. rewrite H1. cbn [snd].
    split; [exact H2|]. split; [exact H3|]. split; [exact H4|].
    now rewrite H5.
Defined.

(** *** [connect] and [sendSMS] *)

Ltac fields :=
  cbn [config connectionModel channel isConnected isConnecting
       reconnectAttempts deliveryCallbacks reconnectTimer trace
       negb orb andb fst snd].

Ltac answers :=
  fields;
  repeat (match goal with
          | |- context [match amqp_connect ?b with _ => _ end] =>
              destruct (amqp_connect b)
          | |- context [match createChannel ?b with _ => _ end] =>
              destruct (createChannel b)
          | |- context [match assertQueue ?b ?q with _ => _ end] =>
              destruct (assertQueue b q)
          | |- context [match consume ?b with _ => _ end] =>
              destruct (consume b)
          | |- context [match channel_close ?b with _ => _ end] =>
              destruct (channel_close b)
          | |- context [match connection_close ?b with _ => _ end] =>
              destruct (connection_close b)
          | |- context [if ?c then _ else _] => destruct c
          end; fields).

(** [connect] leaves the callbacks and the configuration alone and
    publishes nothing. *)
Lemma connect_frame b s :
  deliveryCallbacks (snd (connect b s)) = deliveryCallbacks s
  /\ config (snd (connect b s)) = config s
  /\ exists evs, trace (snd (connect b s)) = trace s ++ evs
                 /\ Forall (fun e => is_publish e = false) evs.
Proof.
  destruct s as [cfg cm ch ic ig ra dc rt tr]. run.
  destruct ic, ig; cbn;
    try (repeat split; exists []; rewrite app_nil_r; split; constructor).
  answers.
  all: repeat split.
  all: eexists; split;
    [repeat rewrite <- app_assoc; simpl; reflexivity|repeat constructor].
Qed.

Lemma new_events_extend s s' evs :
  trace s' = trace s ++ evs -> new_events s s' = evs.
Proof. intros H. unfold new_events. rewrite H. apply drop_app_length. Qed.

(** An invalid number: the failure is returned at once and the sender,
    its journal included, is as before. *)
Lemma sendSMS_invalid b to_ text_ sid_ cb s :
  validateE164 to_ = false ->
  sendSMS b to_ text_ sid_ cb s
  = (Return (Resolved (failure ("Invalid phone number format: " +:+ to_ +:+
               ". Must be E.164 format (e.g., +15551234567)"))), s).
Proof. intros H. unfold sendSMS. rewrite H. reflexivity. Qed.

(** A valid number on a sender that is connected, or that [connect]
    connects, and that has its channel: the callback is registered, the
    envelope is published, and the answer of [sendToQueue] decides. *)
Lemma sendSMS_ready b to_ text_ sid_ cb s s1 :
  validateE164 to_ = true -> ensured b s s1 -> channel s1 = true ->
  let m := envelope b to_ text_ sid_ in
  let s2 := add_event (SendToQueue (queueName (config s1)) m)
              (register (sid m) cb s1) in
  sendSMS b to_ text_ sid_ cb s
  = match sendToQueue b m with
    | Sent => (Return (Resolved (accepted (sid m))), s2)
    | BufferFull => (Return (OnDrain (accepted (sid m))), add_event OnceDrain s2)
    | PublishThrows err =>
        (Return (Resolved (failure err)), unregister (sid m) cb s2)
    end.
Proof.
  intros Hv He Hc m s2. unfold sendSMS. rewrite Hv.
  cbv [bind ret throw try_catch get modify emit when]. cbn [negb].
  destruct He as [[Hi ->]|[Hi Hconn]]; rewrite Hi; cbn [negb];
    [|rewrite Hconn]; rewrite Hc; cbn [negb]; subst s2 m;
    destruct cb as [cb|]; cbn [register unregister];
    destruct (sendToQueue b (envelope b to_ text_ sid_)); reflexivity.
Qed.

(** In all other cases the call fails before the publish. *)
Lemma sendSMS_not_ready b to_ text_ sid_ cb s :
  validateE164 to_ = true ->
  (forall s1, ensured b s s1 -> channel s1 = false) ->
  exists err s' evs,
    sendSMS b to_ text_ sid_ cb s = (Return (Resolved (failure err)), s')
    /\ deliveryCallbacks s' = deliveryCallbacks s
    /\ trace s' = trace s ++ evs
    /\ Forall (fun e => is_publish e = false) evs.
Proof.
  intros Hv Hn. unfold sendSMS. rewrite Hv.
  cbv [bind ret throw try_catch get modify emit when]. cbn [negb].
  destruct (isConnected s) eqn:Hi; cbn [negb].
  - rewrite (Hn s) by (left; auto). cbn [negb].
    do 2 eexists. exists []. rewrite app_nil_r. repeat split. constructor.
  - destruct (connect_frame b s) as (Hd & _ & evs & Ht & Hf).
    destruct (connect b s) as [[[]|e] s1] eqn:Hconn; cbn [snd] in *.
    + rewrite (Hn s1) by (right; auto). cbn [negb]. eauto 10.
    + eauto 10.
Qed.

(** A call publishes exactly when the number is valid and the sender is
    ready after "Ensure connection". *)
Lemma publishes_ready b to_ text_ sid_ cb s :
  publishes b to_ text_ sid_ cb s ->
  validateE164 to_ = true /\ exists s1, ensured b s s1 /\ channel s1 = true.
Proof.
  intros [q Hp].
  destruct (validateE164 to_) eqn:Hv.
  - split; [reflexivity|].
    destruct (isConnected s) eqn:Hi.
    + destruct (channel s) eqn:Hc; [exists s; split; [left|]; auto|].
      exfalso. destruct (sendSMS_not_ready b to_ text_ sid_ cb s Hv)
        as (err & s' & evs & Hs & _ & Ht & Hf).
      { intros s1 [[_ ->]|[Hi' _]]; congruence. }
      rewrite Hs in Hp. cbn [snd] in Hp.
      rewrite (new_events_extend _ _ _ Ht) in Hp.
      rewrite Forall_forall in Hf. now apply Hf in Hp.
    + destruct (connect b s) as [[[]|e] s1] eqn:Hconn.
      * destruct (channel s1) eqn:Hc; [exists s1; split; [right|]; auto|].
        exfalso. destruct (sendSMS_not_ready b to_ text_ sid_ cb s Hv)
          as (err & s' & evs & Hs & _ & Ht & Hf).
        { intros s2 [[Hi' _]|[_ Hconn']]; congruence. }
        rewrite Hs in Hp. cbn [snd] in Hp.
        rewrite (new_events_extend _ _ _ Ht) in Hp.
        rewrite Forall_forall in Hf. now apply Hf in Hp.
      * exfalso. destruct (sendSMS_not_ready b to_ text_ sid_ cb s Hv)
          as (err & s' & evs & Hs & _ & Ht & Hf).
        { intros s2 [[Hi' _]|[_ Hconn']]; congruence. }
        rewrite Hs in Hp. cbn [snd] in Hp.
        rewrite (new_events_extend _ _ _ Ht) in Hp.
        rewrite Forall_forall in Hf. now apply Hf in Hp.
  - exfalso. rewrite (sendSMS_invalid _ _ _ _ _ _ Hv) in Hp. cbn [snd] in Hp.
    rewrite new_events_refl in Hp. inversion Hp.
Qed.

Lemma ready_or_not b s :
  (exists s1, ensured b s s1 /\ channel s1 = true)
  \/ (forall s1, ensured b s s1 -> channel s1 = false).
Proof.
  unfold ensured. destruct (isConnected s) eqn:Hi.
  - destruct (channel s) eqn:Hc.
    + left. exists s. auto.
    + right. intros s1 [[_ ->]|[? _]]; congruence.
  - destruct (connect b s) as [[[]|e] s1] eqn:Hconn.
    + destruct (channel s1) eqn:Hc.
      * left. exists s1. auto.
      * right. intros s2 [[? _]|[_ ?]]; congruence.
    + right. intros s2 [[? _]|[_ ?]]; congruence.
Qed.

Lemma ensured_frame b s s1 :
  ensured b s s1 ->
  deliveryCallbacks s1 = deliveryCallbacks s
  /\ config s1 = config s
  /\ exists evs, trace s1 = trace s ++ evs
                 /\ Forall (fun e => is_publish e = false) evs.
Proof.
  intros [[_ ->]|[_ Hconn]].
  - repeat split. exists []. rewrite app_nil_r. split; constructor.
  - pose proof (connect_frame b s) as H. now rewrite Hconn in H.
Qed.

(** The events of a call that publishes: what "Ensure connection" did,
    the timer of the callback if there is one, the publish, and the wait
    for the drain signal if the buffer was full. *)
Lemma sendSMS_ready_events b to_ text_ sid_ cb s s1 :
  validateE164 to_ = true -> ensured b s s1 -> channel s1 = true ->
  let m := envelope b to_ text_ sid_ in
  exists evs,
    Forall (fun e => is_publish e = false) evs
    /\ new_events s (snd (sendSMS b to_ text_ sid_ cb s))
       = evs ++ [SendToQueue (queueName (config s)) m]
         ++ match sendToQueue b m with BufferFull => [OnceDrain] | _ => [] end.
Proof.
  intros Hv He Hc m.
  rewrite (sendSMS_ready _ _ _ _ _ _ _ Hv He Hc).
  destruct (ensured_frame _ _ _ He) as (_ & Hcfg & evs & Ht & Hf).
  fold m. rewrite Hcfg.
  exists (evs ++ match cb with
                 | Some _ => [SetTimeout (ExpiryTimer (sid m)) 300000]
                 | None => []
                 end).
  split.
  - apply Forall_app. split; [exact Hf|]. destruct cb; repeat constructor.
  - destruct (sendToQueue b m), cb; cbn [snd]; apply new_events_extend;
      cbn; rewrite Ht; repeat rewrite <- app_assoc; reflexivity.
Qed.

(** *** E.164 *)

Lemma length_list_ascii s :
  length (list_ascii_of_string s) = String.length s.
Proof. induction s; simpl; congruence. Qed.

Lemma all_digits_Forall s :
  all_digits s = true <->
  Forall (fun c => is_digit c = true) (list_ascii_of_string s).
Proof.
  induction s as [|c s IH]; simpl.
  - split; [constructor|reflexivity].
  - rewrite andb_true_iff, IH, Forall_cons. reflexivity.
Qed.

Lemma is_digit_1_9_iff d :
  is_digit_1_9 d = true <-> is_digit d = true /\ d <> "0"%char.
Proof.
  unfold is_digit_1_9, is_digit. rewrite !andb_true_iff, !Nat.leb_le.
  split.
  - intros [H1 H2]. split; [lia|]. intros ->. vm_compute in H1. lia.
  - intros [[H1 H2] Hn]. split; [|lia].
    destruct (Nat.eq_dec (nat_of_ascii d) 48%nat) as [E|]; [|lia].
    exfalso. apply Hn. rewrite <- (ascii_nat_embedding d), E. reflexivity.
Qed.

(** The regular expression accepts exactly the numbers of the format. *)
Lemma validateE164_spec s : validateE164 s = true <-> E164 s.
Proof.
  unfold E164. split.
  - destruct s as [|c s']; [discriminate|].
    destruct c as [[] [] [] [] [] [] [] []]; try discriminate.
    destruct s' as [|d rest]; [discriminate|]. simpl.
    rewrite !andb_true_iff, !Nat.leb_le.
    intros [[[Hd Ha] H1] H2].
    exists (d :: list_ascii_of_string rest). simpl.
    rewrite string_of_list_ascii_of_string, length_list_ascii.
    repeat split; try lia.
    + destruct (String.length rest); [discriminate|lia].
    + constructor; [now apply is_digit_1_9_iff in Hd|now apply all_digits_Forall].
    + exists d. split; [reflexivity|]. now apply is_digit_1_9_iff in Hd.
  - intros (digits & -> & [Hl1 Hl2] & Hf & d & Hh & Hn).
    destruct digits as [|d' ds]; [discriminate|]. injection Hh as ->.
    apply Forall_cons in Hf as [Hd Hds]. simpl in *.
    rewrite <- (list_ascii_of_string_of_list_ascii ds) in Hds.
    apply all_digits_Forall in Hds. rewrite Hds.
    rewrite (proj2 (is_digit_1_9_iff d)) by auto.
    rewrite <- length_list_ascii, list_ascii_of_string_of_list_ascii.
    simpl. destruct (length ds) eqn:El; [lia|].
    simpl. apply Nat.leb_le. lia.
Qed.

(** A [connect()] that is not answered at once by "already connected
    or connecting" starts with the connection attempt. *)
Lemma connect_starts b s :
  isConnected s = false -> isConnecting s = false ->
  exists evs,
    trace (snd (connect b s)) = trace s ++ Connect (rabbitmqUrl (config s)) :: evs.
Proof.
  destruct s as [cfg cm ch ic ig ra dc rt tr]. cbn. intros -> ->. run.
  answers; eexists; repeat rewrite <- app_assoc; cbn [app]; reflexivity.
Qed.

(** A valid number is let through: the call goes on to "Ensure
    connection" and, on a sender that is ready, to the publish. *)
Lemma sendSMS_valid_goes_on b to_ text_ sid_ cb s :
  validateE164 to_ = true ->
  let m := envelope b to_ text_ sid_ in
  let s' := snd (sendSMS b to_ text_ sid_ cb s) in
  (isReady s = true ->
   new_events s s'
   = match cb with
     | Some _ => [SetTimeout (ExpiryTimer (sid m)) 300000]
     | None => []
     end
     ++ [SendToQueue (queueName (config s)) m]
     ++ match sendToQueue b m with BufferFull => [OnceDrain] | _ => [] end
   /\ (sendToQueue b m = Sent ->
       fst (sendSMS b to_ text_ sid_ cb s)
       = Return (Resolved (accepted (sid m)))))
  /\ (isConnected s = false -> isConnecting s = false ->
      exists evs, new_events s s' = Connect (rabbitmqUrl (config s)) :: evs).
Proof.
  intros Hv m s'. split.
  - intros Hr. apply andb_true_iff in Hr as [Hi Hc].
    assert (He : ensured b s s) by (left; auto).
    pose proof (sendSMS_ready b to_ text_ sid_ cb s s Hv He Hc) as Hs.
    cbv zeta in Hs. fold m in Hs. subst s'. rewrite Hs. split.
    + destruct (sendToQueue b m), cb; cbn [snd]; apply new_events_extend;
        cbn; repeat rewrite <- app_assoc; reflexivity.
    + intros ->. reflexivity.
  - intros Hi Hg. destruct (connect_starts b s Hi Hg) as [evs Ht].
    subst s'.
    destruct (connect b s) as [[[]|e] s1] eqn:Hconn; cbn [snd] in Ht.
    + destruct (channel s1) eqn:Hc.
      * assert (He : ensured b s s1) by (right; auto).
        pose proof (sendSMS_ready b to_ text_ sid_ cb s s1 Hv He Hc) as Hs.
        cbv zeta in Hs. fold m in Hs. rewrite Hs.
        destruct (sendToQueue b m), cb; cbn [snd]; eexists;
          apply new_events_extend; cbn; rewrite Ht;
          repeat rewrite <- app_assoc; cbn [app]; reflexivity.
      * unfold sendSMS. rewrite Hv.
        cbv [bind ret throw try_catch get modify emit when]. cbn [negb].
        rewrite Hi. cbn [negb]. rewrite Hconn, Hc. cbn [negb snd].
        exists evs. now apply new_events_extend.
    + unfold sendSMS. rewrite Hv.
      cbv [bind ret throw try_catch get modify emit when]. cbn [negb].
      rewrite Hi. cbn [negb]. rewrite Hconn. cbn [snd].
      exists evs. now apply new_events_extend.
Qed.

(** C2. [sendSMS] validates the destination against E.164, a plus sign
    followed by 2 to 15 digits of which the first is from 1 to 9:
    the regular expression accepts exactly these numbers; it accepts
    +15551234567, +447700900123, +123 and +123456789012345 and rejects
    5551234567, +0551234567, +12345678901234567 and the empty string.
    A rejected number makes [sendSMS] return a failure at once, the
    sender unchanged and no event done: no connect, no publish. An
    accepted number is let through by [sendSMS]: on a sender that is
    ready the call publishes the envelope for that destination to the
    outbound queue and, the broker taking it, returns the success; on a
    sender that is neither connected nor connecting it starts with a
    connection attempt. *)
Theorem sendSMS_validates_E164 :
  (forall number, validateE164 number = true <-> E164 number)
  /\ Forall (fun number => validateE164 number = true)
       ["+15551234567"; "+447700900123"; "+123"; "+123456789012345"]
  /\ Forall (fun number => validateE164 number = false)
       ["5551234567"; "+0551234567"; "+12345678901234567"; ""]
  /\ (forall b to_ text_ sid_ cb s,
        validateE164 to_ = false ->
        exists result,
          sendSMS b to_ text_ sid_ cb s = (Return (Resolved result), s)
          /\ success result = false /\ is_Some (error result)
          /\ new_events s (snd (sendSMS b to_ text_ sid_ cb s)) = [])
  /\ (forall b to_ text_ sid_ cb s,
        validateE164 to_ = true ->
        let m := envelope b to_ text_ sid_ in
        let s' := snd (sendSMS b to_ text_ sid_ cb s) in
        (isReady s = true ->
         new_events s s'
         = match cb with
           | Some _ => [SetTimeout (ExpiryTimer (sid m)) 300000]
           | None => []
           end
           ++ [SendToQueue (queueName (config s)) m]
           ++ match sendToQueue b m with BufferFull => [OnceDrain] | _ => [] end
         /\ to m = to_
         /\ (sendToQueue b m = Sent ->
             fst (sendSMS b to_ text_ sid_ cb s)
             = Return (Resolved (accepted (sid m)))))
        /\ (isConnected s = false -> isConnecting s = false ->
            exists evs,
              new_events s s' = Connect (rabbitmqUrl (config s)) :: evs)).
Proof.
  split; [exact validateE164_spec|].
  split; [repeat constructor|].
  split; [repeat constructor|].
  split.
  - intros b to_ text_ sid_ cb s Hv.
    rewrite (sendSMS_invalid _ _ _ _ _ _ Hv). eexists. split; [reflexivity|].
    cbn. split; [reflexivity|]. split; [eauto|]. apply new_events_refl.
  - intros b to_ text_ sid_ cb s Hv m s'.
    destruct (sendSMS_valid_goes_on b to_ text_ sid_ cb s Hv) as [H1 H2].
    split; [|exact H2].
    intros Hr. destruct (H1 Hr) as [Ha Hb]. repeat split; assumption.
Qed.

Lemma sendSMS_validates_E164_witness :
  (exists result,
     sendSMS a_dead_broker "+0551234567" "Test" None (Some a_callback) a_sender
     = (Return (Resolved result), a_sender)
     /\ success result = false)
  /\ fst (sendSMS (a_broker Sent) "+123" "Test" None None a_connected_sender)
     = Return (Resolved (accepted (randomUUID_second (a_broker Sent))))
  /\ exists evs,
       new_events a_sender
         (snd (sendSMS a_dead_broker "+123" "Test" None None a_sender))
       = Connect "amqp://localhost:5672" :: evs.
Proof.
  pose proof sendSMS_validates_E164 as (_ & _ & _ & Hrej & Hacc).
  split; [|split].
  - destruct (Hrej a_dead_broker "+0551234567" "Test" None (Some a_callback)
                a_sender eq_refl) as (result & H & Hs & _).
    exists result. split; assumption.
  - destruct (Hacc (a_broker Sent) "+123" "Test" None None a_connected_sender
                eq_refl) as [Hready _].
    destruct (Hready eq_refl) as (_ & _ & Hsent). exact (Hsent eq_refl).
  - destruct (Hacc a_dead_broker "+123" "Test" None None a_sender eq_refl)
      as [_ Hconn].
    exact (Hconn eq_refl eq_refl).
Defined.

(** C4. A call of [sendSMS] whose publish finds the buffer full
    ([sendToQueue] answers [false]) returns a promise that is pending
    until the drain signal, for which it has registered with [once], and
    that the signal resolves with success and the correlation id as
    message id; it is no failure. *)
Theorem sendSMS_waits_for_drain b to_ text_ sid_ cb s :
  publishes b to_ text_ sid_ cb s ->
  sendToQueue b (envelope b to_ text_ sid_) = BufferFull ->
  exists p s',
    sendSMS b to_ text_ sid_ cb s = (Return p, s')
    /\ settled p = None
    /\ last (new_events s s') = Some OnceDrain
    /\ drain p = Resolved {| success := true;
                             messageId := Some (sid_or_uuid b sid_);
                             error := None |}.
Proof.
  intros Hp Hfull.
  destruct (publishes_ready _ _ _ _ _ _ Hp) as (Hv & s1 & He & Hc).
  destruct (sendSMS_ready_events b to_ text_ sid_ cb s s1 Hv He Hc)
    as (evs & _ & Hev).
  rewrite (sendSMS_ready b to_ text_ sid_ cb s s1 Hv He Hc) in *.
  rewrite Hfull in *.
  do 2 eexists. split; [reflexivity|]. split; [reflexivity|].
  split; [|reflexivity].
  cbn [snd] in Hev. rewrite Hev.
  rewrite app_assoc. apply last_snoc.
Qed.

Lemma sendSMS_waits_for_drain_witness :
  exists s',
    sendSMS (a_broker BufferFull) "+15551234567" "Test" None None
      a_connected_sender
    = (Return (OnDrain {| success := true;
                          messageId := Some "7b0c5f0e-0000-4000-8000-000000000002";
                          error := None |}), s').
Proof.
  destruct (sendSMS_waits_for_drain (a_broker BufferFull) "+15551234567" "Test"
              None None a_connected_sender)
    as (p & s' & H & _ & _ & Hd).
  - exists "sms_outbound". vm_compute. repeat constructor.
  - reflexivity.
  - exists s'. rewrite H. destruct p; [discriminate|].
    simpl in Hd. injection Hd as ->. reflexivity.
Defined.

(** C7, as the code has it. If the publish of a call of [sendSMS]
    throws, the result is the failure with the message of the
    exception, and a callback given to the call is no longer registered:
    the registry has no entry under the correlation id of the call and
    every other entry is as before the call. It is the registry of
    before the call when no callback was given or when the id had no
    entry before. *)
Theorem sendSMS_publish_exception b to_ text_ sid_ cb s err :
  publishes b to_ text_ sid_ cb s ->
  sendToQueue b (envelope b to_ text_ sid_) = PublishThrows err ->
  exists s',
    sendSMS b to_ text_ sid_ cb s
    = (Return (Resolved {| success := false; messageId := None;
                           error := Some err |}), s')
    /\ (is_Some cb -> deliveryCallbacks s' !! sid_or_uuid b sid_ = None)
    /\ (forall k, k <> sid_or_uuid b sid_ ->
                  deliveryCallbacks s' !! k = deliveryCallbacks s !! k)
    /\ (cb = None -> deliveryCallbacks s' = deliveryCallbacks s)
    /\ (deliveryCallbacks s !! sid_or_uuid b sid_ = None ->
        deliveryCallbacks s' = deliveryCallbacks s).
Proof.
  intros Hp Hthrow.
  destruct (publishes_ready _ _ _ _ _ _ Hp) as (Hv & s1 & He & Hc).
  destruct (ensured_frame _ _ _ He) as (Hd & _).
  rewrite (sendSMS_ready b to_ text_ sid_ cb s s1 Hv He Hc), Hthrow.
  eexists. split; [reflexivity|].
  destruct cb as [cb|]; cbn; rewrite Hd.
  - split; [intros _; apply lookup_delete_eq|].
    split; [intros k Hk; now rewrite lookup_delete_ne, lookup_insert_ne by auto|].
    split; [discriminate|].
    intros Hnone. rewrite delete_insert_eq. now apply delete_id.
  - split; [intros [? [=]]|]. repeat split; reflexivity.
Qed.

Lemma sendSMS_publish_exception_witness :
  exists s',
    sendSMS (a_broker (PublishThrows "Send failed")) "+15551234567" "Test"
      None (Some a_callback) a_connected_sender
    = (Return (Resolved {| success := false; messageId := None;
                           error := Some "Send failed" |}), s')
    /\ deliveryCallbacks s' = deliveryCallbacks a_connected_sender.
Proof.
  destruct (sendSMS_publish_exception (a_broker (PublishThrows "Send failed"))
              "+15551234567" "Test" None (Some a_callback) a_connected_sender
              "Send failed")
    as (s' & H & _ & _ & _ & Hsame).
  - exists "sms_outbound". vm_compute. repeat constructor.
  - reflexivity.
  - exists s'. split; [exact H|]. apply Hsame. reflexivity.
Defined.

(** C7, as it is stated, fails when the correlation id given by the
    caller already has a callback: the registration replaces that
    callback and the clean-up removes the entry, so the registry after
    the call is not the registry of before. *)
Lemma publish_failure_loses_earlier_callback :
  let s := set_deliveryCallbacks {[ "X" := a_callback ]} a_connected_sender in
  let s' := snd (sendSMS (a_broker (PublishThrows "Send failed"))
                   "+15551234567" "Test" (Some "X")
                   (Some a_throwing_callback) s) in
  publishes (a_broker (PublishThrows "Send failed")) "+15551234567" "Test"
    (Some "X") (Some a_throwing_callback) s
  /\ deliveryCallbacks s !! "X" = Some a_callback
  /\ deliveryCallbacks s' !! "X" = None
  /\ deliveryCallbacks s' <> deliveryCallbacks s.
Proof.
  intros s s'.
  assert (H1 : deliveryCallbacks s !! "X" = Some a_callback) by reflexivity.
  assert (H2 : deliveryCallbacks s' !! "X" = None) by reflexivity.
  split; [exists "sms_outbound"; vm_compute; repeat constructor|].
  split; [exact H1|]. split; [exact H2|].
  intros E. rewrite E, H1 in H2. discriminate.
Qed.

(** C10. A call of [sendSMS] whose result is a success, at once or
    after the drain signal, has published an envelope, and the message
    id of the result is the [sid] of that envelope: the [sid] given by
    the caller, or the second UUID when none (or the empty string) was
    given. The [id] of the envelope is the first UUID, and the message
    id is not that [id] unless the two coincide. *)
Theorem sendSMS_messageId_is_sid b to_ text_ sid_ cb s p s' :
  sendSMS b to_ text_ sid_ cb s = (Return p, s') ->
  success (resolves_with p) = true ->
  let m := envelope b to_ text_ sid_ in
  SendToQueue (queueName (config s)) m ∈ new_events s s'
  /\ messageId (resolves_with p) = Some (sid m)
  /\ sid m = match sid_ with
             | Some given => if String.eqb given "" then randomUUID_second b
                             else given
             | None => randomUUID_second b
             end
  /\ id m = randomUUID_first b
  /\ (id m <> sid m -> messageId (resolves_with p) <> Some (id m)).
Proof.
  intros Hs Hok m.
  destruct (validateE164 to_) eqn:Hv;
    [|rewrite (sendSMS_invalid _ _ _ _ _ _ Hv) in Hs;
      injection Hs as <- <-; discriminate].
  destruct (ready_or_not b s) as [(s1 & He & Hc)|Hn].
  - destruct (sendSMS_ready_events b to_ text_ sid_ cb s s1 Hv He Hc)
      as (evs & _ & Hev).
    rewrite Hs in Hev. cbn [snd] in Hev.
    rewrite (sendSMS_ready b to_ text_ sid_ cb s s1 Hv He Hc) in Hs.
    fold m in Hs, Hev.
    assert (Hid : messageId (resolves_with p) = Some (sid m)).
    { destruct (sendToQueue b m); injection Hs as <- <-;
        [reflexivity|reflexivity|discriminate]. }
    split; [rewrite Hev; rewrite !elem_of_app, list_elem_of_singleton; auto|].
    split; [exact Hid|]. split; [reflexivity|]. split; [reflexivity|].
    rewrite Hid. congruence.
  - destruct (sendSMS_not_ready b to_ text_ sid_ cb s Hv Hn)
      as (err & s'' & evs & Hs' & _).
    rewrite Hs' in Hs. injection Hs as <- <-. discriminate.
Qed.

Lemma sendSMS_messageId_is_sid_witness :
  let b := a_broker Sent in
  let r := sendSMS b "+15551234567" "Test" (Some "custom-sid-123") None
             a_connected_sender in
  exists p, fst r = Return p
            /\ messageId (resolves_with p) = Some "custom-sid-123"
            /\ messageId (resolves_with p) <> Some (randomUUID_first b).
Proof.
  intros b r.
  pose proof (sendSMS_messageId_is_sid b "+15551234567" "Test"
                (Some "custom-sid-123") None a_connected_sender
                (Resolved (accepted "custom-sid-123")) (snd r)
                eq_refl eq_refl) as (_ & Hid & _ & _ & Hne).
  exists (Resolved (accepted "custom-sid-123")).
  split; [reflexivity|]. split; [exact Hid|].
  apply Hne. discriminate.
Defined.

(** *** The consumer of receipts *)

Ltac journal :=
  unfold new_events; cbn [trace];
  repeat rewrite <- app_assoc; rewrite ?drop_app_length; cbn [app].




(** *** [close] *)

(** What [close()] does from any state: it returns and throws nothing,
    a reconnect timer that was pending is cancelled, and no callback
    stays registered. *)
Lemma close_clears b s :
  exists s',
    close b s = (Return tt, s')
    /\ (reconnectTimer s = true -> ClearTimeout ReconnectTimer ∈ new_events s s')
    /\ deliveryCallbacks s' = ∅
    /\ pendingCallbacks (getStatus s') = 0%nat
    /\ config s' = config s
    /\ isConnecting s' = isConnecting s.
Proof.
  destruct s as [cfg cm ch ic ig ra dc rt tr]. run.
  destruct rt, ch, cm; cbn; answers;
    (eexists; split; [reflexivity|]; cbn;
     split; [intros Ht; try discriminate; journal; repeat constructor|];
     repeat split).
Qed.

(** With a connection that emits no ['close'] (the test doubles of the
    repository), and closing calls that do not fail, [close()] leaves
    the sender disconnected with no timer, and a further [close()] does
    nothing more. *)
Lemma close_without_event b s :
  close_event b = false ->
  (channel s = true -> channel_close b = Fulfils) ->
  (connectionModel s = true -> connection_close b = Fulfils) ->
  exists s',
    close b s = (Return tt, s')
    /\ reconnectTimer s' = false
    /\ channel s' = false /\ connectionModel s' = false
    /\ connected (getStatus s') = false /\ isReady s' = false
    /\ forall b', close b' s' = (Return tt, s').
Proof.
  destruct s as [cfg cm ch ic ig ra dc rt tr]. run. intros -> H1 H2.
  destruct rt, ch, cm; cbn;
    try rewrite (H1 eq_refl); try rewrite (H2 eq_refl); cbn;
    (eexists; split; [reflexivity|]; cbn; repeat split).
Qed.

(** C6, where the code departs from it. [close()] on a sender that
    holds a connection, the calls that close the channel and the
    connection succeeding and the connection emitting ['close'] as that
    of amqplib does: the listener that [connect] installed runs
    [handleDisconnect] during the call, after the timer was cancelled,
    and [scheduleReconnect] arms a new one. So [close()] returns with
    the sender reported disconnected and no callback registered, but
    with one more attempt counted and a reconnect timer pending; and
    when that timer fires and the broker accepts, the sender that was
    closed is connected again. *)
Theorem close_then_reconnects b b' s :
  connectionModel s = true -> isConnecting s = false ->
  (channel s = true -> channel_close b = Fulfils) ->
  connection_close b = Fulfils -> close_event b = true ->
  (reconnectAttempts s < or_default (maxReconnectAttempts (config s)) 10)%nat ->
  amqp_connect b' = Fulfils -> createChannel b' = Fulfils ->
  assertQueue b' (queueName (config s)) = Fulfils ->
  assertQueue b' (callbackQueue (config s)) = Fulfils ->
  consume b' = Fulfils ->
  exists s' s'',
    close b s = (Return tt, s')
    /\ getStatus s'
       = {| connected := false; attempts := S (reconnectAttempts s);
            pendingCallbacks := 0 |}
    /\ reconnectTimer s' = true
    /\ new_events s s'
       = (if reconnectTimer s then [ClearTimeout ReconnectTimer] else [])
         ++ (if channel s then [ChannelClose] else [])
         ++ [ConnectionClose;
             SetTimeout ReconnectTimer
               (or_default_ms (reconnectDelayMs (config s)) 5000)]
    /\ reconnect_timer_fires b' s' = (Return tt, s'')
    /\ isReady s'' = true
    /\ connected (getStatus s'') = true
    /\ new_events s' s''
       = [Connect (rabbitmqUrl (config s)); CreateChannel;
          AssertQueue (queueName (config s));
          AssertQueue (callbackQueue (config s));
          Consume (callbackQueue (config s))].
Proof.
  destruct s as [cfg cm ch ic ig ra dc rt tr]. cbn.
  intros -> -> H1 H2 H3 Hlt Ha Hb Hc Hd He.
  assert (Hleb : (or_default (maxReconnectAttempts cfg) 10 <=? ra)%nat = false)
    by (apply Nat.leb_gt; exact Hlt).
  run. rewrite H2, H3.
  destruct rt, ch; cbn; try rewrite (H1 eq_refl); cbn; rewrite Hleb; cbn;
    (do 2 eexists; split; [reflexivity|]; cbn;
     split; [reflexivity|]; split; [reflexivity|];
     split; [journal; reflexivity|];
     split;
       [rewrite Ha; fields; rewrite Hb; fields; rewrite Hc; fields;
        rewrite Hd; fields; rewrite He; fields; reflexivity|];
     split; [reflexivity|]; split; [reflexivity|];
     match goal with |- context [drop (length ?l) _] => generalize l end;
     intros l; cbn [trace]; repeat rewrite <- app_assoc;
     rewrite drop_app_length; reflexivity).
Qed.

Lemma close_then_reconnects_witness :
  exists s' s'',
    close (a_broker Sent) a_connected_sender = (Return tt, s')
    /\ connected (getStatus s') = false
    /\ reconnectTimer s' = true
    /\ reconnect_timer_fires (a_broker Sent) s' = (Return tt, s'')
    /\ connected (getStatus s'') = true.
Proof.
  destruct (close_then_reconnects (a_broker Sent) (a_broker Sent)
              a_connected_sender)
    as (s' & s'' & H & Hst & Ht & _ & Hf & _ & Hc & _);
    try reflexivity.
  - vm_compute. lia.
  - exists s', s''. rewrite Hst in *. repeat split; assumption.
Defined.

(** The other way in which [close()] leaves the transport up: when
    closing the channel fails, the error is caught, the connection is
    not closed and the sender still reports that it is connected. *)
Lemma close_failing_stays_connected :
  let s' := snd (close a_broker_failing_close a_connected_sender) in
  fst (close a_broker_failing_close a_connected_sender) = Return tt
  /\ connected (getStatus a_connected_sender) = true
  /\ connected (getStatus s') = true
  /\ isReady s' = true
  /\ new_events a_connected_sender s' = [ChannelClose]
  /\ ConnectionClose ∉ new_events a_connected_sender s'.
Proof.
  intros s'.
  assert (H : new_events a_connected_sender s' = [ChannelClose])
    by reflexivity.
  repeat split; try reflexivity.
  rewrite H. intros Hin.
  repeat (apply elem_of_cons in Hin as [Hin|Hin]; [discriminate|]).
  inversion Hin.
Qed.

(** *** The reconnect budget for any bound *)

(** One firing of the timer on a sender that waits for it, the broker
    refusing: one connection attempt, and one more timer if the attempts
    are below the bound. *)
Lemma reconnect_timer_fires_refused b s err :
  amqp_connect b = Rejects err ->
  isConnected s = false -> isConnecting s = false -> reconnectTimer s = true ->
  let m := or_default (maxReconnectAttempts (config s)) 10 in
  let spent := (m <=? reconnectAttempts s)%nat in
  exists s',
    reconnect_timer_fires b s = (Return tt, s')
    /\ config s' = config s
    /\ isConnected s' = false /\ isConnecting s' = false
    /\ reconnectTimer s' = negb spent
    /\ reconnectAttempts s'
       = (if spent then reconnectAttempts s else S (reconnectAttempts s))
    /\ exists evs, trace s' = trace s ++ evs
                   /\ count is_connect evs = 1%nat
                   /\ count is_reconnect_schedule evs
                      = (if spent then 0 else 1)%nat.
Proof.
  destruct s as [cfg cm ch ic ig ra dc rt tr]. cbn.
  intros Hb -> -> ->. run. rewrite Hb. run.
  destruct (or_default (maxReconnectAttempts cfg) 10 <=? ra)%nat;
    (eexists; split; [reflexivity|]; cbn; repeat split;
     eexists; split;
     [repeat rewrite <- app_assoc; reflexivity|split; reflexivity]).
Qed.

Lemma count_app p evs1 evs2 :
  count p (evs1 ++ evs2) = (count p evs1 + count p evs2)%nat.
Proof. unfold count. now rewrite List.filter_app, length_app. Qed.

(** X14. A sender that waits for its reconnect timer, with brokers that
    refuse every connection, for any bound (a configured bound of 0
    counting as 10): the timers that are scheduled from then on are
    exactly the attempts that the bound still allows, each firing makes
    one connection attempt, and then no timer is pending and the
    reconnection has stopped. *)
Lemma reconnect_budget bs : forall s,
  Forall refuses bs ->
  isConnected s = false -> isConnecting s = false -> reconnectTimer s = true ->
  let m := or_default (maxReconnectAttempts (config s)) 10 in
  (reconnectAttempts s <= m)%nat ->
  (m - reconnectAttempts s < length bs)%nat ->
  exists s' evs,
    timer_fires bs s = (Return tt, s')
    /\ trace s' = trace s ++ evs
    /\ reconnectTimer s' = false
    /\ reconnectAttempts s' = m
    /\ count is_reconnect_schedule evs = (m - reconnectAttempts s)%nat
    /\ count is_connect evs = (m - reconnectAttempts s + 1)%nat.
Proof.
  induction bs as [|b bs IH]; intros s Hbs Hic Hig Hrt m Hle Hlen;
    [simpl in Hlen; lia|].
  apply Forall_cons in Hbs as [[err Hb] Hbs].
  destruct (reconnect_timer_fires_refused b s err Hb Hic Hig Hrt)
    as (s1 & Hfire & Hcfg & Hic1 & Hig1 & Hrt1 & Hra1 & evs1 & Ht1 & Hc1 & Hs1).
  fold m in Hrt1, Hra1, Hs1.
  simpl. unfold bind at 1. rewrite Hfire.
  destruct (Nat.leb_spec m (reconnectAttempts s)) as [Hspent|Hleft];
    cbn [negb] in Hrt1.
  - assert (reconnectAttempts s = m) as Heq by lia.
    rewrite (timer_fires_idle bs s1 Hrt1).
    exists s1, evs1. repeat split; try assumption; lia.
  - destruct (IH s1 Hbs Hic1 Hig1 Hrt1) as (s' & evs & Hrun & Ht & Hrt' & Hra' & Hs & Hc).
    + rewrite Hcfg. fold m. lia.
    + rewrite Hcfg. fold m. simpl in Hlen. lia.
    + rewrite Hcfg in *. fold m in Hra', Hs, Hc.
      exists s', (evs1 ++ evs). rewrite Hrun.
      repeat split; try assumption.
      * now rewrite Ht, Ht1, app_assoc.
      * rewrite count_app, Hs1, Hs, Hra1. lia.
      * rewrite count_app, Hc1, Hc, Hra1. lia.
Qed.

(** *** Further properties of the connection *)

Lemma reconnect_budget_witness :
  let s0 := new_sender "amqp://localhost:5672" "sms_outbound" "sms_callbacks"
              None (Some 0%nat) in
  let s1 := snd (connect a_dead_broker s0) in
  exists s' evs,
    timer_fires (replicate 12 a_dead_broker) s1 = (Return tt, s')
    /\ trace s' = trace s1 ++ evs
    /\ reconnectAttempts s' = 10%nat
    /\ count is_reconnect_schedule evs = 9%nat.
Proof.
  intros s0 s1.
  assert (Hbs : Forall refuses (replicate 12 a_dead_broker)).
  { apply Forall_replicate. exists "Connection failed". reflexivity. }
  pose proof (reconnect_budget (replicate 12 a_dead_broker) s1 Hbs
                eq_refl eq_refl eq_refl) as Hb.
  cbv zeta in Hb.
  destruct Hb as (s' & evs & H & Ht & _ & Ha & Hs & _).
  - vm_compute. lia.
  - vm_compute. lia.
  - exists s', evs. repeat split; assumption.
Defined.

(** [connect()] with a broker that accepts every step. *)
Lemma connect_accepted b s :
  isConnected s = false -> isConnecting s = false ->
  amqp_connect b = Fulfils -> createChannel b = Fulfils ->
  assertQueue b (queueName (config s)) = Fulfils ->
  assertQueue b (callbackQueue (config s)) = Fulfils ->
  consume b = Fulfils ->
  exists s',
    connect b s = (Return tt, s')
    /\ new_events s s'
       = [Connect (rabbitmqUrl (config s)); CreateChannel;
          AssertQueue (queueName (config s));
          AssertQueue (callbackQueue (config s));
          Consume (callbackQueue (config s))]
    /\ isReady s' = true /\ isConnecting s' = false
    /\ getStatus s'
       = {| connected := true; attempts := 0;
            pendingCallbacks := size (deliveryCallbacks s) |}
    /\ reconnectTimer s' = reconnectTimer s
    /\ config s' = config s
    /\ forall b', connect b' s' = (Return tt, s').
Proof.
  destruct s as [cfg cm ch ic ig ra dc rt tr]. cbn.
  intros -> -> H1 H2 H3 H4 H5. run.
  rewrite H1. run. rewrite H2. run. rewrite H3. run. rewrite H4. run.
  rewrite H5. run.
  eexists; split; [reflexivity|].
  split; [journal; reflexivity|]. repeat split.
Qed.

(** X15. [connect()] on a sender that is neither connected nor
    connecting, with a broker that accepts the connection, the channel,
    both queues and the consumer: it returns, having connected, opened
    the channel, asserted the outbound and the callback queue and
    started the consumer, in this order; the sender is ready, its
    attempts are back to 0 and its callbacks and its reconnect timer are
    as before. A further [connect()] does nothing, whatever the broker
    would answer. *)
Theorem connect_succeeds b s :
  isConnected s = false -> isConnecting s = false ->
  amqp_connect b = Fulfils -> createChannel b = Fulfils ->
  assertQueue b (queueName (config s)) = Fulfils ->
  assertQueue b (callbackQueue (config s)) = Fulfils ->
  consume b = Fulfils ->
  exists s',
    connect b s = (Return tt, s')
    /\ new_events s s'
       = [Connect (rabbitmqUrl (config s)); CreateChannel;
          AssertQueue (queueName (config s));
          AssertQueue (callbackQueue (config s));
          Consume (callbackQueue (config s))]
    /\ isReady s' = true /\ isConnecting s' = false
    /\ getStatus s'
       = {| connected := true; attempts := 0;
            pendingCallbacks := size (deliveryCallbacks s) |}
    /\ reconnectTimer s' = reconnectTimer s
    /\ config s' = config s
    /\ forall b', connect b' s' = (Return tt, s').
Proof.
  exact (connect_accepted b s).
Qed.

Lemma connect_succeeds_witness :
  isReady a_connected_sender = true
  /\ connect a_dead_broker a_connected_sender = (Return tt, a_connected_sender).
Proof.
  destruct (connect_succeeds (a_broker Sent) a_sender
              eq_refl eq_refl eq_refl eq_refl eq_refl eq_refl eq_refl)
    as (s' & H & _ & Hr & _ & _ & _ & _ & Hagain).
  unfold a_connected_sender. rewrite H. cbn [snd].
  split; [exact Hr|apply Hagain].
Defined.

(** What a [connect()] that throws leaves behind. *)
Lemma connect_throws b s e s' :
  isConnected s = false -> isConnecting s = false ->
  connect b s = (Throw e, s') ->
  (exists cause, e = "Failed to connect to RabbitMQ: " +:+ cause)
  /\ isConnected s' = false /\ isConnecting s' = false
  /\ deliveryCallbacks s' = deliveryCallbacks s
  /\ Forall (fun ev => ev <> ChannelClose /\ ev <> ConnectionClose
                       /\ is_publish ev = false) (new_events s s')
  /\ (reconnectTimer s' = true
      \/ (or_default (maxReconnectAttempts (config s)) 10
          <= reconnectAttempts s)%nat).
Proof.
  destruct s as [cfg cm ch ic ig ra dc rt tr]. cbn.
  intros -> ->. run.
  destruct (amqp_connect b); fields;
    [destruct (createChannel b); fields;
     [destruct (assertQueue b (queueName cfg)); fields;
      [destruct (assertQueue b (callbackQueue cfg)); fields;
       [destruct (consume b); fields|]|]|]|].
  all: destruct rt; fields;
    try destruct (Nat.leb_spec (or_default (maxReconnectAttempts cfg) 10) ra);
    fields; intros E; inversion E; subst; clear E; cbn.
  all: (split; [eexists; reflexivity|]); repeat split; auto.
  all: journal; repeat constructor; discriminate.
Qed.

(** X16. A [connect()] that fails, at whatever step, on a sender that
    was neither connected nor connecting: the error is
    [Failed to connect to RabbitMQ: ] and the cause; the sender is
    neither connected nor connecting, so that a later [connect()] tries
    again; nothing is closed, published or removed from the callbacks;
    and a reconnect timer is pending unless the attempts have reached
    the bound. *)
Theorem connect_fails b s e s' :
  isConnected s = false -> isConnecting s = false ->
  connect b s = (Throw e, s') ->
  (exists cause, e = "Failed to connect to RabbitMQ: " +:+ cause)
  /\ isConnected s' = false /\ isConnecting s' = false
  /\ deliveryCallbacks s' = deliveryCallbacks s
  /\ Forall (fun ev => ev <> ChannelClose /\ ev <> ConnectionClose
                       /\ is_publish ev = false) (new_events s s')
  /\ (reconnectTimer s' = true
      \/ (or_default (maxReconnectAttempts (config s)) 10
          <= reconnectAttempts s)%nat).
Proof.
  exact (connect_throws b s e s').
Qed.

Lemma connect_fails_witness :
  exists s',
    connect a_dead_broker a_sender
    = (Throw "Failed to connect to RabbitMQ: Connection failed", s')
    /\ reconnectTimer s' = true /\ isConnecting s' = false.
Proof.
  eexists. split; [reflexivity|].
  destruct (connect_fails a_dead_broker a_sender _ _ eq_refl eq_refl eq_refl)
    as (_ & _ & Hg & _ & _ & [Ht|Hex]).
  - split; [exact Ht|exact Hg].
  - vm_compute in Hex. lia.
Defined.

(** X17. [handleDisconnect], the answer to an ['error'] or ['close'] of
    the connection: the sender is disconnected and has let go of the
    channel and the connection, at most one reconnect is scheduled, and
    the callbacks that wait for a receipt stay registered. A second
    event right after the first (the ['close'] after the ['error'])
    changes nothing more. *)
Theorem handleDisconnect_once s :
  exists s',
    handleDisconnect s = (Return tt, s')
    /\ isReady s' = false
    /\ getStatus s'
       = {| connected := false; attempts := reconnectAttempts s';
            pendingCallbacks := size (deliveryCallbacks s) |}
    /\ channel s' = false /\ connectionModel s' = false
    /\ (count is_reconnect_schedule (new_events s s') <= 1)%nat
    /\ Forall (fun ev => is_reconnect_schedule ev = true) (new_events s s')
    /\ handleDisconnect s' = (Return tt, s').
Proof.
  destruct s as [cfg cm ch ic ig ra dc rt tr]. run.
  destruct rt; run.
  - eexists. split; [reflexivity|]. cbn. repeat split.
    + unfold new_events. cbn. rewrite drop_all. cbn. lia.
    + unfold new_events. cbn. rewrite drop_all. constructor.
  - destruct (Nat.leb_spec (or_default (maxReconnectAttempts cfg) 10) ra) as [H|H].
    + eexists. split; [reflexivity|]. cbn. repeat split.
      * unfold new_events. cbn. rewrite drop_all. cbn. lia.
      * unfold new_events. cbn. rewrite drop_all. constructor.
      * run. destruct (Nat.leb_spec (or_default (maxReconnectAttempts cfg) 10) ra);
          [reflexivity|exfalso; lia].
    + eexists. split; [reflexivity|]. cbn. repeat split.
      * journal. cbn. lia.
      * journal. repeat constructor.
Qed.

(** *** A send and its receipt *)

Lemma on_message_registered s msg r (cb : DeliveryCallback) :
  channel s = true ->
  content msg = JsonReceipt r ->
  deliveryCallbacks s !! receipt_sid r = Some cb ->
  cb r = Return tt ->
  on_message (Some msg) s
  = (Return tt,
     after [Call cb r; SetTimeout (GraceTimer (receipt_sid r)) 60000;
            Ack (deliveryTag msg)] s).
Proof.
  destruct s as [cfg cm ch ic ig ra dc rt tr]. cbn [channel deliveryCallbacks].
  intros -> Hc Hl Hcb. run. rewrite Hc. run. rewrite Hl. run. rewrite Hcb.
  unfold after. cbn. now rewrite <- !app_assoc.
Qed.

Lemma on_message_unregistered s msg r :
  channel s = true ->
  content msg = JsonReceipt r ->
  deliveryCallbacks s !! receipt_sid r = None ->
  on_message (Some msg) s = (Return tt, after [Ack (deliveryTag msg)] s).
Proof.
  destruct s as [cfg cm ch ic ig ra dc rt tr]. cbn [channel deliveryCallbacks].
  intros -> Hc Hl. run. rewrite Hc. run. rewrite Hl. reflexivity.
Qed.

(** The sender after a call of [sendSMS] that published without an
    exception. *)
Lemma sendSMS_accepted_state b to_ text_ sid_ cb s :
  publishes b to_ text_ sid_ cb s ->
  (forall err, sendToQueue b (envelope b to_ text_ sid_) <> PublishThrows err) ->
  let s' := snd (sendSMS b to_ text_ sid_ cb s) in
  let messageSid := sid_or_uuid b sid_ in
  (exists p, fst (sendSMS b to_ text_ sid_ cb s) = Return p
             /\ resolves_with p = accepted messageSid)
  /\ channel s' = true
  /\ deliveryCallbacks s'
     = match cb with
       | Some f => <[messageSid := f]> (deliveryCallbacks s)
       | None => deliveryCallbacks s
       end.
Proof.
  intros Hp Hno s' messageSid. subst s'.
  destruct (publishes_ready _ _ _ _ _ _ Hp) as (Hv & s1 & He & Hc).
  destruct (ensured_frame _ _ _ He) as (Hd & _).
  rewrite (sendSMS_ready b to_ text_ sid_ cb s s1 Hv He Hc).
  destruct (sendToQueue b (envelope b to_ text_ sid_)) eqn:Hs;
    [| |now destruct (Hno err)].
  all: split; [eexists; split; reflexivity|].
  all: destruct cb; cbn; rewrite ?Hd; split; (exact Hc || reflexivity).
Qed.

(** X18. A send and its receipt: after a call of [sendSMS] with a
    callback that published without an exception, a receipt that
    carries the message id of the result as its sid calls that callback
    and, the callback returning, is acknowledged; and the number of
    pending callbacks has grown by one if the id had no callback
    before. *)
Theorem send_then_receipt b to_ text_ sid_ (cb : DeliveryCallback) s msg status :
  publishes b to_ text_ sid_ (Some cb) s ->
  (forall err, sendToQueue b (envelope b to_ text_ sid_) <> PublishThrows err) ->
  let s' := snd (sendSMS b to_ text_ sid_ (Some cb) s) in
  forall p messageSid,
    fst (sendSMS b to_ text_ sid_ (Some cb) s) = Return p ->
    messageId (resolves_with p) = Some messageSid ->
    let receipt := {| receipt_status := status; receipt_sid := messageSid |} in
    content msg = JsonReceipt receipt ->
    cb receipt = Return tt ->
    on_message (Some msg) s'
    = (Return tt,
       after [Call cb receipt; SetTimeout (GraceTimer messageSid) 60000;
              Ack (deliveryTag msg)] s')
    /\ (deliveryCallbacks s !! messageSid = None ->
        pendingCallbacks (getStatus s') = S (pendingCallbacks (getStatus s))).
Proof.
  intros Hp Hno s' p messageSid Hfst Hid receipt Hc Hcb.
  destruct (sendSMS_accepted_state b to_ text_ sid_ (Some cb) s Hp Hno)
    as ((p' & Hfst' & Hres) & Hch & Hdc).
  fold s' in Hch, Hdc.
  assert (messageSid = sid_or_uuid b sid_) as ->.
  { rewrite Hfst in Hfst'. injection Hfst' as <-. rewrite Hres in Hid.
    now injection Hid. }
  split.
  - apply (on_message_registered s' msg receipt cb Hch Hc); [|exact Hcb].
    rewrite Hdc. apply lookup_insert_eq.
  - intros Hnone. cbn. rewrite Hdc. now apply map_size_insert_None.
Qed.

Lemma send_then_receipt_witness :
  let s' := snd (sendSMS (a_broker Sent) "+15551234567" "Test" (Some "X")
                   (Some a_callback) a_connected_sender) in
  on_message (Some a_receipt_message) s'
  = (Return tt,
     after [Call a_callback a_receipt; SetTimeout (GraceTimer "X") 60000;
            Ack 7] s')
  /\ pendingCallbacks (getStatus s') = 1%nat.
Proof.
  intros s'.
  destruct (send_then_receipt (a_broker Sent) "+15551234567" "Test" (Some "X")
              a_callback a_connected_sender a_receipt_message delivered)
    with (p := Resolved (accepted "X")) (messageSid := "X") as [H1 H2].
  - exists "sms_outbound". vm_compute. repeat constructor.
  - discriminate.
  - reflexivity.
  - reflexivity.
  - reflexivity.
  - reflexivity.
  - split; [exact H1|exact (H2 eq_refl)].
Defined.

(** X19. The expiry of a callback: when the timer that [sendSMS] set
    for a correlation id fires, the callback under that id is removed
    and nothing else is; if the id had no callback before the send, the
    registry is again the one of before the send, and a receipt that
    comes later is acknowledged without any call. A timer that finds no
    callback does nothing. *)
Theorem send_then_expiry b to_ text_ sid_ (cb : DeliveryCallback) s msg status :
  publishes b to_ text_ sid_ (Some cb) s ->
  (forall err, sendToQueue b (envelope b to_ text_ sid_) <> PublishThrows err) ->
  deliveryCallbacks s !! sid_or_uuid b sid_ = None ->
  let messageSid := sid_or_uuid b sid_ in
  let s1 := snd (sendSMS b to_ text_ sid_ (Some cb) s) in
  exists s2,
    expiry_timer_fires messageSid s1 = (Return tt, s2)
    /\ deliveryCallbacks s2 = deliveryCallbacks s
    /\ trace s2 = trace s1
    /\ expiry_timer_fires messageSid s2 = (Return tt, s2)
    /\ (content msg
        = JsonReceipt {| receipt_status := status; receipt_sid := messageSid |} ->
        on_message (Some msg) s2 = (Return tt, after [Ack (deliveryTag msg)] s2)).
Proof.
  intros Hp Hno Hfresh messageSid s1.
  destruct (sendSMS_accepted_state b to_ text_ sid_ (Some cb) s Hp Hno)
    as (_ & Hch & Hdc).
  fold s1 in Hch, Hdc. fold messageSid in Hdc, Hfresh.
  destruct s1 as [cfg cm ch ic ig ra dc rt tr]. cbn in Hch, Hdc. subst ch dc.
  run. rewrite lookup_insert_eq.
  rewrite bool_decide_eq_true_2 by eauto. run.
  rewrite delete_insert_eq, (delete_id _ _ Hfresh).
  eexists. split; [reflexivity|]. cbn.
  split; [reflexivity|]. split; [reflexivity|]. split.
  - rewrite Hfresh. rewrite bool_decide_eq_false_2 by (intros [? [=]]).
    reflexivity.
  - intros Hc.
    apply (on_message_unregistered _ msg
             {| receipt_status := status; receipt_sid := messageSid |});
      [reflexivity|exact Hc|exact Hfresh].
Qed.

Lemma send_then_expiry_witness :
  let s1 := snd (sendSMS (a_broker Sent) "+15551234567" "Test" (Some "X")
                   (Some a_callback) a_connected_sender) in
  exists s2,
    expiry_timer_fires "X" s1 = (Return tt, s2)
    /\ pendingCallbacks (getStatus s2) = 0%nat
    /\ on_message (Some a_receipt_message) s2 = (Return tt, after [Ack 7] s2).
Proof.
  intros s1.
  destruct (send_then_expiry (a_broker Sent) "+15551234567" "Test" (Some "X")
              a_callback a_connected_sender a_receipt_message delivered)
    as (s2 & H & Hd & _ & _ & Hr).
  - exists "sms_outbound". vm_compute. repeat constructor.
  - discriminate.
  - reflexivity.
  - exists s2. split; [exact H|]. split; [|exact (Hr eq_refl)].
    cbn. rewrite Hd. reflexivity.
Defined.

(** *** [sendSMS] and the connection *)

(** X20. [sendSMS] on a sender that is not connected, when the broker
    refuses the connection: the result is the failure
    [Not connected to RabbitMQ: Failed to connect to RabbitMQ: ] and the
    cause; nothing is published, the callback given is not registered,
    and the sender is left as the failed [connect()] leaves it, with a
    reconnect pending unless the attempts have reached the bound. *)
Theorem sendSMS_connect_refused b to_ text_ sid_ cb s cause :
  validateE164 to_ = true ->
  isConnected s = false -> isConnecting s = false ->
  amqp_connect b = Rejects cause ->
  let s' := snd (connect b s) in
  sendSMS b to_ text_ sid_ cb s
  = (Return (Resolved (failure ("Not connected to RabbitMQ: "
                                +:+ "Failed to connect to RabbitMQ: "
                                +:+ cause))), s')
  /\ deliveryCallbacks s' = deliveryCallbacks s
  /\ count is_publish (new_events s s') = 0%nat
  /\ count is_connect (new_events s s') = 1%nat
  /\ (reconnectTimer s' = true
      \/ (or_default (maxReconnectAttempts (config s)) 10
          <= reconnectAttempts s)%nat).
Proof.
  intros Hv Hi Hg Hb s'.
  assert (Hconn : exists st,
            connect b s
            = (Throw ("Failed to connect to RabbitMQ: " +:+ cause), st)
            /\ count is_connect (new_events s st) = 1%nat
            /\ count is_publish (new_events s st) = 0%nat).
  { destruct s as [cfg cm ch ic ig ra dc rt tr]. cbn in Hi, Hg. subst ic ig.
    run. rewrite Hb. run. destruct rt; fields;
      [|destruct (or_default (maxReconnectAttempts cfg) 10 <=? ra)%nat; fields];
      (eexists; split; [reflexivity|]); split; journal; reflexivity. }
  destruct Hconn as (st & Hconn & Hc1 & Hc2).
  destruct (connect_throws b s _ st Hi Hg Hconn) as (_ & _ & _ & Hd & _ & Hr).
  subst s'. rewrite Hconn. cbn [snd].
  split; [|repeat split; assumption].
  unfold sendSMS. rewrite Hv.
  cbv [bind ret throw try_catch get modify emit when]. cbn [negb].
  rewrite Hi. cbn [negb]. rewrite Hconn. reflexivity.
Qed.

Lemma sendSMS_connect_refused_witness :
  exists s',
    sendSMS a_dead_broker "+15551234567" "Test" None (Some a_callback) a_sender
    = (Return (Resolved (failure
         "Not connected to RabbitMQ: Failed to connect to RabbitMQ: Connection failed")),
       s')
    /\ pendingCallbacks (getStatus s') = 0%nat.
Proof.
  destruct (sendSMS_connect_refused a_dead_broker "+15551234567" "Test" None
              (Some a_callback) a_sender "Connection failed"
              eq_refl eq_refl eq_refl eq_refl) as (H & Hd & _).
  eexists. split; [exact H|reflexivity].
Defined.

(** X21. [sendSMS] connects by itself: on a sender that is neither
    connected nor connecting, with a broker that accepts everything, the
    call first does what [connect()] does, then sets the expiry timer of
    the callback if one is given, then publishes the envelope to the
    outbound queue, and returns the success; the sender is ready
    afterwards. *)
Theorem sendSMS_connects_first b to_ text_ sid_ cb s :
  validateE164 to_ = true ->
  isConnected s = false -> isConnecting s = false ->
  amqp_connect b = Fulfils -> createChannel b = Fulfils ->
  assertQueue b (queueName (config s)) = Fulfils ->
  assertQueue b (callbackQueue (config s)) = Fulfils ->
  consume b = Fulfils ->
  sendToQueue b (envelope b to_ text_ sid_) = Sent ->
  exists s',
    sendSMS b to_ text_ sid_ cb s
    = (Return (Resolved (accepted (sid_or_uuid b sid_))), s')
    /\ isReady s' = true
    /\ new_events s s'
       = [Connect (rabbitmqUrl (config s)); CreateChannel;
          AssertQueue (queueName (config s));
          AssertQueue (callbackQueue (config s));
          Consume (callbackQueue (config s))]
         ++ match cb with
            | Some _ => [SetTimeout (ExpiryTimer (sid_or_uuid b sid_)) 300000]
            | None => []
            end
         ++ [SendToQueue (queueName (config s)) (envelope b to_ text_ sid_)].
Proof.
  intros Hv Hi Hg H1 H2 H3 H4 H5 Hs.
  destruct (connect_accepted b s Hi Hg H1 H2 H3 H4 H5)
    as (s1 & Hconn & Hev & Hr & _ & _ & _ & Hcfg & _).
  assert (He : ensured b s s1) by (right; auto).
  assert (Hc : channel s1 = true).
  { unfold isReady in Hr. now apply andb_true_iff in Hr as [_ ?]. }
  rewrite (sendSMS_ready b to_ text_ sid_ cb s s1 Hv He Hc), Hs.
  eexists. split; [reflexivity|].
  assert (Ht : trace s1 = trace s ++ new_events s s1).
  { destruct (connect_frame b s) as (_ & _ & evs & Ht & _).
    rewrite Hconn in Ht. cbn [snd] in Ht.
    now rewrite (new_events_extend _ _ _ Ht). }
  rewrite Hev in Ht. split.
  - unfold isReady in *. now destruct cb.
  - apply new_events_extend. rewrite Hcfg.
    destruct cb; cbn; rewrite Ht; now rewrite <- !app_assoc.
Qed.

Lemma sendSMS_connects_first_witness :
  exists s',
    sendSMS (a_broker Sent) "+15551234567" "Test" None None a_sender
    = (Return (Resolved (accepted "7b0c5f0e-0000-4000-8000-000000000002")), s')
    /\ isReady s' = true.
Proof.
  destruct (sendSMS_connects_first (a_broker Sent) "+15551234567" "Test" None
              None a_sender eq_refl eq_refl eq_refl eq_refl eq_refl eq_refl
              eq_refl eq_refl eq_refl) as (s' & H & Hr & _).
  exists s'. split; [exact H|exact Hr].
Defined.

(** X22. A reconnection that succeeds gives the budget back: when the
    reconnect timer fires on a disconnected sender and the broker
    accepts, the sender is connected and ready, no timer is pending and
    the attempts are 0 again, however many had been made. *)
Theorem reconnect_succeeds b s :
  reconnectTimer s = true ->
  isConnected s = false -> isConnecting s = false ->
  amqp_connect b = Fulfils -> createChannel b = Fulfils ->
  assertQueue b (queueName (config s)) = Fulfils ->
  assertQueue b (callbackQueue (config s)) = Fulfils ->
  consume b = Fulfils ->
  exists s',
    reconnect_timer_fires b s = (Return tt, s')
    /\ isReady s' = true
    /\ reconnectTimer s' = false
    /\ getStatus s'
       = {| connected := true; attempts := 0;
            pendingCallbacks := pendingCallbacks (getStatus s) |}
    /\ count is_reconnect_schedule (new_events s s') = 0%nat.
Proof.
  destruct s as [cfg cm ch ic ig ra dc rt tr]. cbn.
  intros -> -> -> H1 H2 H3 H4 H5. run.
  rewrite H1. run. rewrite H2. run. rewrite H3. run. rewrite H4. run.
  rewrite H5. run.
  eexists. split; [reflexivity|]. repeat split. journal. reflexivity.
Qed.

Lemma reconnect_succeeds_witness :
  let s := snd (connect a_dead_broker a_sender) in
  attempts (getStatus s) = 1%nat
  /\ exists s', reconnect_timer_fires (a_broker Sent) s = (Return tt, s')
                /\ attempts (getStatus s') = 0%nat
                /\ connected (getStatus s') = true.
Proof.
  intros s. split; [reflexivity|].
  destruct (reconnect_succeeds (a_broker Sent) s eq_refl eq_refl eq_refl
              eq_refl eq_refl eq_refl eq_refl eq_refl)
    as (s' & H & _ & _ & Hst & _).
  exists s'. split; [exact H|]. now rewrite Hst.
Defined.

End SenderFacts.

(** * Further properties *)

(** ** QueueManager: rows, statuses and statistics *)

Section QueueMoreFacts.
Import Eff QueueManager.

Lemma filter_id_none k l :
  Forall (fun m => id m <> k) l -> List.filter (fun m => id m =? k) l = [].
Proof.
  induction 1 as [|m l Hm _ IH]; simpl; [reflexivity|].
  destruct (Z.eqb_spec (id m) k); [contradiction|exact IH].
Qed.

(** X1. [addToQueue] then [getMessage]: on a table whose rowids are not
    above the counter, the new row gets the next rowid, [getMessage]
    of that id returns the row as given, with status pending, and the
    rows under every other id are as before. *)
Theorem addToQueue_getMessage now message p a sender_ md db :
  well_formed db ->
  let rowid := last_rowid db + 1 in
  let row := {| id := rowid; sender := sender_; content := message;
                priority := p; status := Pending; timestamp := now;
                routing_action := a; metadata := md |} in
  exists db',
    addToQueue now message p a sender_ md db = (Return rowid, db')
    /\ rows db' = rows db ++ [row]
    /\ getMessage rowid db' = Some row
    /\ (forall j, j <> rowid -> getMessage j db' = getMessage j db)
    /\ well_formed db'.
Proof.
  intros Hwf rowid row. eexists. split; [reflexivity|]. cbn.
  split; [reflexivity|]. split; [|split].
  - unfold getMessage. cbn. rewrite List.filter_app.
    rewrite filter_id_none.
    + cbn. fold rowid. now rewrite Z.eqb_refl.
    + eapply Forall_impl; [exact Hwf|]. cbn. intros m Hm. fold rowid. lia.
  - intros j Hj. unfold getMessage. cbn. rewrite List.filter_app. cbn.
    fold rowid. destruct (Z.eqb_spec rowid j); [congruence|].
    now rewrite app_nil_r.
  - exact (insert_run_well_formed sender_ message p Pending now a md db Hwf).
Qed.

Lemma addToQueue_getMessage_witness :
  exists db',
    addToQueue 1700000000000 "Test message" Normal Queue "+1234567890" None
      empty_db = (Return 1, db')
    /\ status <$> getMessage 1 db' = Some Pending.
Proof.
  destruct (addToQueue_getMessage 1700000000000 "Test message" Normal Queue
              "+1234567890" None empty_db well_formed_empty)
    as (db' & H & _ & Hg & _).
  exists db'. split; [exact H|]. exact (f_equal (fmap status) Hg).
Defined.

Lemma map_no_hit k (f : Message -> Message) l :
  Forall (fun m => id m <> k) l ->
  map (fun m => if id m =? k then f m else m) l = l.
Proof.
  induction 1 as [|m l Hm _ IH]; simpl; [reflexivity|].
  destruct (Z.eqb_spec (id m) k); [contradiction|now rewrite IH].
Qed.

(** X2. A change of status for an id that no row has, the id being a
    safe integer: the method throws
    [Failed to update message status: Message <id> not found], with the
    id in decimal digits, and no row is changed. *)
Theorem updateStatus_not_found k s db :
  safe_integer k ->
  Forall (fun m => id m <> k) (rows db) ->
  exists db',
    updateStatus k s db
    = (Throw ("Failed to update message status: Message " +:+ pretty k
              +:+ " not found"), db')
    /\ rows db' = rows db
    /\ last_rowid db' = last_rowid db.
Proof.
  intros _ H. unfold updateStatus, try_catch, bind, update_run, throw.
  rewrite (filter_id_none _ _ H). cbn.
  eexists. split; [reflexivity|]. cbn.
  split; [apply map_no_hit; exact H|reflexivity].
Qed.

Lemma updateStatus_not_found_witness :
  fst (markResolved 7 empty_db)
  = Throw "Failed to update message status: Message 7 not found".
Proof.
  destruct (updateStatus_not_found 7 Resolved empty_db) as (db' & H & _).
  - split; reflexivity.
  - constructor.
  - unfold markResolved. rewrite H. reflexivity.
Defined.

Lemma head_filter_map_hit k (f : Message -> Message) l m :
  (forall x, id (f x) = id x) ->
  head (List.filter (fun m => id m =? k) l) = Some m ->
  head (List.filter (fun m => id m =? k)
          (map (fun m => if id m =? k then f m else m) l)) = Some (f m)
  /\ List.filter (fun m => id m =? k) l <> [].
Proof.
  intros Hf. induction l as [|x l IH]; simpl; [discriminate|].
  destruct (Z.eqb_spec (id x) k) as [E|N]; simpl.
  - intros [= ->]. rewrite Hf. destruct (Z.eqb_spec (id m) k); [|contradiction].
    split; [reflexivity|discriminate].
  - destruct (Z.eqb_spec (id x) k); [contradiction|]. exact IH.
Qed.

Lemma filter_map_other k j (f : Message -> Message) l :
  (forall x, id (f x) = id x) -> j <> k ->
  List.filter (fun m => id m =? j)
    (map (fun m => if id m =? k then f m else m) l)
  = List.filter (fun m => id m =? j) l.
Proof.
  intros Hf Hjk. induction l as [|x l IH]; simpl; [reflexivity|].
  destruct (Z.eqb_spec (id x) k) as [E|N].
  - rewrite Hf. destruct (Z.eqb_spec (id x) j); [congruence|exact IH].
  - destruct (id x =? j); now rewrite IH.
Qed.

(** X3. A change of status for an id that [getMessage] finds: the method
    returns, [getMessage] then gives the same row with the new status,
    whatever the old and the new status are (no change is refused, a
    resolved row can be set back to pending), and the rows under other
    ids and the number of rows are as before. *)
Theorem updateStatus_found k s db m :
  getMessage k db = Some m ->
  exists db',
    updateStatus k s db = (Return tt, db')
    /\ getMessage k db' = Some (set_status s m)
    /\ (forall j, j <> k -> getMessage j db' = getMessage j db)
    /\ length (rows db') = length (rows db)
    /\ last_rowid db' = last_rowid db.
Proof.
  unfold getMessage. intros Hm.
  destruct (head_filter_map_hit k (set_status s) (rows db) m
              (fun _ => eq_refl) Hm) as [Hhit Hne].
  unfold updateStatus, try_catch, bind, update_run, ret.
  destruct (List.filter (fun m0 => id m0 =? k) (rows db)) eqn:Hf;
    [contradiction|]. cbn.
  eexists. split; [reflexivity|]. cbn.
  split; [exact Hhit|]. split; [|split; [apply length_map|reflexivity]].
  intros j Hj. now rewrite filter_map_other.
Qed.

Lemma updateStatus_found_witness :
  let db := snd (addToQueue 1 "Test message" Normal Queue "+1234567890" None
                   empty_db) in
  exists db1 db2,
    markResolved 1 db = (Return tt, db1)
    /\ markProcessing 1 db1 = (Return tt, db2)
    /\ status <$> getMessage 1 db2 = Some Processing.
Proof.
  intros db.
  destruct (updateStatus_found 1 Resolved db _ eq_refl) as (db1 & H1 & G1 & _).
  destruct (updateStatus_found 1 Processing db1 _ G1) as (db2 & H2 & G2 & _).
  exists db1, db2. split; [exact H1|]. split; [exact H2|].
  exact (f_equal (fmap status) G2).
Defined.

(** *** The invariant of the rowids *)

Lemma map_id_update s k l :
  map id (map (fun m => if id m =? k then set_status s m else m) l) = map id l.
Proof.
  induction l as [|x l IH]; simpl; [reflexivity|].
  rewrite IH. now destruct (id x =? k).
Qed.

Lemma updateStatus_state k s db :
  snd (updateStatus k s db)
  = {| rows := map (fun m => if id m =? k then set_status s m else m) (rows db);
       last_rowid := last_rowid db;
       journal := journal db ++ [UpdateStatus s k] |}.
Proof.
  unfold updateStatus, try_catch, bind, update_run, throw, ret.
  now destruct (Nat.eqb (length (List.filter (fun m => id m =? k) (rows db))) 0).
Qed.

Lemma perform_consistent op db : consistent db -> consistent (perform op db).
Proof.
  intros (Hnd & Hpos & Hb). destruct op as [now message p a sender_ md|s k].
  - unfold consistent, perform, addToQueue, try_catch, insert_run. cbn.
    split; [|split; [lia|]].
    + rewrite map_app. cbn. apply NoDup_app. split; [exact Hnd|].
      split; [|repeat constructor; inversion 1].
      intros x Hx Hx'. apply list_elem_of_singleton in Hx'. subst x.
      apply list_elem_of_fmap in Hx as (m & Hm & Hin).
      rewrite Forall_forall in Hb. specialize (Hb m Hin). lia.
    + apply Forall_app. split.
      * eapply Forall_impl; [exact Hb|]. cbn. intros; lia.
      * repeat constructor; cbn; lia.
  - unfold perform. rewrite updateStatus_state. split; [|split; [exact Hpos|]].
    + cbn. now rewrite map_id_update.
    + cbn. apply Forall_map. eapply Forall_impl; [exact Hb|].
      cbn. intros m Hm. now destruct (id m =? k).
Qed.

(** X4. Whatever is added to a new queue and whatever statuses are set,
    for ids that exist or not: the rowids of the table stay distinct,
    positive and not above the counter, so an id names at most one row
    and [addToQueue] never hands out an id that a row has. *)
Theorem rowids_stay_distinct ops :
  let db := perform_all ops empty_db in
  consistent db
  /\ (forall m1 m2, m1 ∈ rows db -> m2 ∈ rows db -> id m1 = id m2 -> m1 = m2)
  /\ (forall now message p a sender_ md,
        exists rowid db',
          addToQueue now message p a sender_ md db = (Return rowid, db')
          /\ Forall (fun m => id m < rowid) (rows db)).
Proof.
  intros db.
  assert (Hc : consistent db).
  { subst db. unfold perform_all.
    assert (G : forall db0, consistent db0 ->
                  consistent (foldl (fun db op => perform op db) db0 ops)).
    { induction ops as [|op ops IH]; intros db0 H0; cbn; [exact H0|].
      apply IH, perform_consistent, H0. }
    apply G. split; [constructor|split; [reflexivity|constructor]]. }
  split; [exact Hc|]. destruct Hc as (Hnd & Hpos & Hb). split.
  - intros m1 m2 H1 H2 E.
    apply list_elem_of_lookup in H1 as [i1 H1].
    apply list_elem_of_lookup in H2 as [i2 H2].
    assert (i1 = i2).
    { eapply NoDup_lookup; [exact Hnd| |];
        rewrite list_lookup_fmap; [rewrite H1|rewrite H2]; cbn;
        [reflexivity|now rewrite E]. }
    subst i2. congruence.
  - intros now message p a sender_ md. do 2 eexists.
    split; [reflexivity|].
    eapply Forall_impl; [exact Hb|]. cbn. intros; lia.
Qed.

Lemma rowids_stay_distinct_witness :
  let db := perform_all
              [Add 1 "Message 1" Urgent Notify "+1111111111" None;
               Mark Resolved 1; Mark Failed 9;
               Add 2 "Message 2" High Queue "+2222222222" None]
              empty_db in
  NoDup (map id (rows db)) /\ map id (rows db) = [1; 2].
Proof.
  intros db. split; [|reflexivity].
  exact (proj1 (proj1 (rowids_stay_distinct
                         [Add 1 "Message 1" Urgent Notify "+1111111111" None;
                          Mark Resolved 1; Mark Failed 9;
                          Add 2 "Message 2" High Queue "+2222222222" None]))).
Defined.

(** *** Statistics *)

Lemma count_status_partition l :
  length l
  = (count_status Pending l + count_status Processing l
     + count_status Resolved l + count_status Failed l)%nat.
Proof.
  unfold count_status. induction l as [|m l IH]; simpl; [reflexivity|].
  destruct (status m); simpl; lia.
Qed.

(** X5. [getStats] returns, changes nothing, and counts right: each of
    the four buckets is the number of rows with that status, also when
    it is 0 and the grouping has no line for it, and [total] is the
    number of rows, the sum of the four buckets. *)
Theorem getStats_counts db :
  exists st,
    getStats db = (Return st, db)
    /\ pending st = count_status Pending (rows db)
    /\ processing st = count_status Processing (rows db)
    /\ resolved st = count_status Resolved (rows db)
    /\ failed st = count_status Failed (rows db)
    /\ total st = length (rows db)
    /\ total st = (pending st + processing st + resolved st + failed st)%nat.
Proof.
  unfold getStats, try_catch. eexists. split; [reflexivity|].
  rewrite (count_status_partition (rows db)).
  unfold group_by_status. cbn [map].
  destruct (count_status Pending (rows db)),
           (count_status Processing (rows db)),
           (count_status Resolved (rows db)),
           (count_status Failed (rows db)); cbn; repeat split; lia.
Qed.

(** *** [getQueue] *)

Lemma descending_drop n l : descending l -> descending (drop n l).
Proof.
  unfold descending. revert l. induction n as [|n IH]; intros l H; [exact H|].
  destruct l as [|x l]; [constructor|]. apply IH. now inversion H.
Qed.

Lemma descending_take n l : descending l -> descending (take n l).
Proof.
  unfold descending. revert l. induction n as [|n IH]; intros l H;
    [constructor|].
  destruct l as [|x l]; [constructor|]. cbn. inversion H as [|? ? Hs Hh]; subst.
  constructor; [now apply IH|].
  destruct l as [|y l]; [destruct n; constructor|].
  destruct n; [constructor|]. cbn. inversion Hh; subst. now constructor.
Qed.

Lemma limit_offset_window n k l :
  exists a b, l = a ++ limit_offset n k l ++ b.
Proof.
  unfold limit_offset. destruct (n <? 0).
  - exists (take (Z.to_nat k) l), []. now rewrite app_nil_r, take_drop.
  - exists (take (Z.to_nat k) l),
           (drop (Z.to_nat n) (drop (Z.to_nat k) l)).
    now rewrite take_drop, take_drop.
Qed.

Lemma limit_offset_length n k l :
  0 <= n -> (length (limit_offset n k l) <= Z.to_nat n)%nat.
Proof.
  intros Hn. unfold limit_offset.
  destruct (Z.ltb_spec n 0); [lia|]. rewrite length_take. lia.
Qed.

(** What a list that [getQueue] returns holds. *)
Lemma getQueue_returned f db l db' :
  getQueue f db = (Return l, db') ->
  db' = db
  /\ Forall (fun m => m ∈ rows db /\ passes f m = true) l
  /\ descending l
  /\ (forall n, f_limit f = Some n -> 0 < n -> (length l <= Z.to_nat n)%nat).
Proof.
  rewrite getQueue_outcome.
  set (sel := order_by_ts_desc (List.filter (passes f) (rows db))).
  assert (Hsel : Forall (fun m => m ∈ rows db /\ passes f m = true) sel).
  { apply Forall_forall. intros m Hm. subst sel.
    apply list_elem_of_In in Hm.
    apply (Permutation_in _ (order_by_ts_desc_Permutation _)) in Hm.
    apply List.filter_In in Hm as [Hin Hp].
    split; [now apply list_elem_of_In|exact Hp]. }
  assert (Hd : descending sel) by apply order_by_ts_desc_descending.
  assert (Hw : forall n k,
             Forall (fun m => m ∈ rows db /\ passes f m = true)
               (limit_offset n k sel)
             /\ descending (limit_offset n k sel)).
  { intros n k. split.
    - destruct (limit_offset_window n k sel) as (a & b & E).
      rewrite E in Hsel. now apply Forall_app in Hsel as [_ [? _]%Forall_app].
    - unfold limit_offset. destruct (n <? 0);
        [|apply descending_take]; now apply descending_drop. }
  assert (Hn : forall n n', truthy_num (f_limit f) = Some n' ->
                 f_limit f = Some n -> n' = n).
  { intros n n' Ht Hf. unfold truthy_num in Ht. rewrite Hf in Ht.
    destruct (n =? 0); congruence. }
  destruct (truthy_num (f_limit f)) as [n'|] eqn:Hl,
           (truthy_num (f_offset f)) as [k|] eqn:Ho;
    repeat match goal with
           | |- context [if ?c then _ else _] => destruct c
           end;
    intros [= <- <-]; (split; [reflexivity|]).
  - destruct (Hw n' k). repeat split; try assumption.
    intros n Hf Hpos. rewrite <- (Hn n n' eq_refl Hf).
    apply limit_offset_length. rewrite (Hn n n' eq_refl Hf). lia.
  - destruct (Hw n' 0). repeat split; try assumption.
    intros n Hf Hpos. rewrite <- (Hn n n' eq_refl Hf).
    apply limit_offset_length. rewrite (Hn n n' eq_refl Hf). lia.
  - repeat split; try assumption.
    intros n Hf Hpos. unfold truthy_num in Hl. rewrite Hf in Hl.
    destruct (Z.eqb_spec n 0); [lia|discriminate].
Qed.

(** X6. Every list that [getQueue] returns holds rows of the table
    only, each of which passes all the filters supplied, newest first,
    and at most [limit] of them when the limit is positive; the call
    changes nothing in the table. *)
Theorem getQueue_returns_matching_rows f db l db' :
  getQueue f db = (Return l, db') ->
  db' = db
  /\ Forall (fun m => m ∈ rows db /\ passes f m = true) l
  /\ descending l
  /\ (forall n, f_limit f = Some n -> 0 < n -> (length l <= Z.to_nat n)%nat).
Proof.
  exact (getQueue_returned f db l db').
Qed.

Lemma getQueue_returns_matching_rows_witness :
  let db := perform_all
              [Add 1 "Urgent message" Urgent Notify "+1111111111" None;
               Add 2 "High priority" High Queue "+2222222222" None;
               Add 3 "Normal message" Normal Queue "+3333333333" None]
              empty_db in
  exists l, fst (getQueue (with_limit 2 no_filters) db) = Return l
            /\ (length l <= 2)%nat /\ descending l.
Proof.
  intros db. eexists. split; [reflexivity|].
  destruct (getQueue_returns_matching_rows (with_limit 2 no_filters) db _ db
              eq_refl) as (_ & _ & Hd & Hl).
  split; [exact (Hl 2 eq_refl eq_refl)|exact Hd].
Defined.

(** X7. A limit of 0 and an empty sender are not filters: [getQueue]
    answers as if the field were absent. So [limit: 0], with no offset
    or an offset of 0, returns all the rows that pass the other filters
    and not none: the list has each of them as often as the table, the
    newest first. *)
Theorem getQueue_falsy_fields f db :
  getQueue (with_limit 0 f) db = getQueue (without_limit f) db
  /\ getQueue (with_sender (Some "") f) db = getQueue (with_sender None f) db
  /\ (truthy_num (f_offset f) = None ->
      exists l,
        getQueue (with_limit 0 f) db = (Return l, db)
        /\ Permutation l (List.filter (passes f) (rows db))
        /\ descending l).
Proof.
  split; [reflexivity|]. split; [reflexivity|].
  intros Ho.
  destruct (getQueue_filters_only (with_limit 0 f) db eq_refl Ho)
    as (l & Hq & Hd & Hp).
  exists l. split; [exact Hq|]. split; [exact Hp|exact Hd].
Qed.

Lemma getQueue_falsy_fields_witness :
  let db := perform_all
              [Add 1 "Urgent message" Urgent Notify "+1111111111" None;
               Add 2 "High priority" High Queue "+2222222222" None]
              empty_db in
  exists l, getQueue (with_limit 0 no_filters) db = (Return l, db)
            /\ length l = 2%nat.
Proof.
  intros db.
  destruct (proj2 (proj2 (getQueue_falsy_fields no_filters db)) eq_refl)
    as (l & Hq & Hp & _).
  exists l. split; [exact Hq|]. now rewrite (Permutation_length Hp).
Defined.

(** Without an offset the call returns, for a limit that SQLite takes;
    for another it throws. *)
Lemma getQueue_with_limit_or_none f db :
  f_offset f = None ->
  getQueue f db
  = (match truthy_num (f_limit f) with
     | Some n =>
         if sqlite_integer n
         then Return (limit_offset n 0
                        (order_by_ts_desc (List.filter (passes f) (rows db))))
         else Throw "Failed to retrieve queue: datatype mismatch"
     | None => Return (order_by_ts_desc (List.filter (passes f) (rows db)))
     end, db).
Proof.
  intros Ho. rewrite getQueue_outcome. unfold truthy_num at 2. rewrite Ho.
  reflexivity.
Qed.

Lemma truthy_num_sqlite_integer o n :
  from_option sqlite_integer true o = true -> truthy_num o = Some n ->
  sqlite_integer n = true.
Proof.
  unfold truthy_num. destruct o as [z|]; [|discriminate]. cbn.
  destruct (z =? 0); [discriminate|]. now intros H [= <-].
Qed.

End QueueMoreFacts.

(** ** RoutingHandler: custom rules, keywords, the life of a row *)

Section RoutingMoreFacts.
Import Eff RoutingHandler.

Lemma first_match_app rules1 rules2 message :
  first_match (rules1 ++ rules2) message
  = match first_match rules1 message with
    | Some rule => Some rule
    | None => first_match rules2 message
    end.
Proof.
  induction rules1 as [|r rules1 IH]; simpl; [reflexivity|].
  now destruct (condition r message).
Qed.

(** X8. [addRule] puts the rule just before the catch-all: on the rule
    list of a handler the decision stays the one of before whenever a
    rule that was there before the catch-all matches, and otherwise it
    is the new rule if its condition holds and the catch-all if not. The
    new list is again the list of a handler. *)
Theorem addRule_decision rule rules message :
  reachable rules ->
  exists front,
    rules = front ++ [rule_default]
    /\ addRule rule rules = front ++ [rule; rule_default]
    /\ reachable (addRule rule rules)
    /\ findMatchingRule rules message
       = match first_match front message with
         | Some earlier => earlier
         | None => rule_default
         end
    /\ findMatchingRule (addRule rule rules) message
       = match first_match front message with
         | Some earlier => earlier
         | None => if condition rule message then rule else rule_default
         end.
Proof.
  intros Hr. destruct (reachable_ends_with_default _ Hr) as [front ->].
  exists front. split; [reflexivity|].
  rewrite addRule_before_last, <- app_assoc. cbn [app].
  split; [reflexivity|]. split.
  { replace (front ++ [rule; rule_default])
      with (addRule rule (front ++ [rule_default]))
      by (now rewrite addRule_before_last, <- app_assoc).
    now constructor. }
  unfold findMatchingRule. rewrite !first_match_app. cbn.
  destruct (first_match front message); [split; reflexivity|].
  split; [reflexivity|]. now destruct (condition rule message).
Qed.

Lemma addRule_decision_witness :
  let custom := {| condition := fun msg => String.eqb (sender msg) "+9999999999";
                   priority := High; action := Notify; autoResponse := None |} in
  let message := {| sender := "+9999999999";
                    content := "Test from specific sender";
                    channel := sms; timestamp := None; metadata := None |} in
  findMatchingRule (addRule custom new_rules) message = custom.
Proof.
  intros custom message.
  destruct (addRule_decision custom new_rules message reach_new)
    as (front & Hf & _ & _ & _ & H).
  rewrite H.
  change new_rules
    with ([rule_urgent; rule_important; rule_question; rule_spam]
          ++ [rule_default]) in Hf.
  apply app_inj_tail in Hf as [<- _]. reflexivity.
Defined.

(** *** Keywords *)

Lemma toLowerCase_app a b :
  JsString.toLowerCase (a +:+ b)
  = JsString.toLowerCase a +:+ JsString.toLowerCase b.
Proof. induction a as [|c a IH]; simpl; [reflexivity|now rewrite IH]. Qed.

Lemma startsWith_app p s : JsString.startsWith p (p +:+ s) = true.
Proof.
  induction p as [|c p IH]; simpl; [reflexivity|].
  now rewrite Ascii.eqb_refl, IH.
Qed.

Lemma includes_startsWith p s :
  JsString.startsWith p s = true -> JsString.includes p s = true.
Proof. intros H. destruct s; simpl; now rewrite H. Qed.

Lemma includes_app pre needle post :
  JsString.includes needle (pre +:+ needle +:+ post) = true.
Proof.
  induction pre as [|c pre IH].
  - change (JsString.includes needle (needle +:+ post) = true).
    apply includes_startsWith, startsWith_app.
  - change (JsString.includes needle (String c (pre +:+ needle +:+ post)) = true).
    simpl. rewrite IH. apply orb_true_r.
Qed.

(** X9. The urgent rule goes first and reads the content without regard
    to case and to what surrounds the keyword: a message whose content
    has one of the urgent keywords anywhere in it, in any mix of capital
    and small letters, is decided urgent, notify on the default rules,
    whatever else the content holds (a spam keyword, a question). *)
Theorem urgent_keyword_anywhere message pre word post keyword :
  In keyword urgentKeywords ->
  JsString.toLowerCase word = keyword ->
  content message = pre +:+ word +:+ post ->
  findMatchingRule new_rules message = rule_urgent
  /\ priority (findMatchingRule new_rules message) = Urgent
  /\ action (findMatchingRule new_rules message) = Notify.
Proof.
  intros Hk Hw Hc.
  assert (H : condition rule_urgent message = true).
  { change (JsString.some
              (fun keyword =>
                 JsString.includes keyword (JsString.toLowerCase (content message)))
              urgentKeywords = true).
    unfold JsString.some. apply existsb_exists. exists keyword.
    split; [exact Hk|].
    rewrite Hc, !toLowerCase_app, Hw. apply includes_app. }
  assert (E : findMatchingRule new_rules message = rule_urgent).
  { unfold findMatchingRule, new_rules, initializeDefaultRules.
    cbn [app first_match]. now rewrite H. }
  rewrite E. repeat split.
Qed.

Lemma urgent_keyword_anywhere_witness :
  priority (findMatchingRule new_rules
              {| sender := "+1234567890";
                 content := "Free prize? Call me ASAP!";
                 channel := sms; timestamp := None; metadata := None |})
  = Urgent.
Proof.
  apply (urgent_keyword_anywhere
           {| sender := "+1234567890"; content := "Free prize? Call me ASAP!";
              channel := sms; timestamp := None; metadata := None |}
           "Free prize? Call me " "ASAP" "!" "asap").
  - cbn. auto 10.
  - reflexivity.
  - reflexivity.
Defined.

(** *** The life of a row *)

Lemma process_returns w rules message db :
  exists result db', process w rules message db = (Return result, db').
Proof. unfold process. apply try_catch_returns. Qed.

Lemma updateStatus_last_row s row l n j :
  Forall (fun m => QueueManager.id m <= QueueManager.id row - 1) l ->
  QueueManager.updateStatus (QueueManager.id row) s
    {| QueueManager.rows := l ++ [row]; QueueManager.last_rowid := n;
       QueueManager.journal := j |}
  = (Return tt,
     {| QueueManager.rows := l ++ [QueueManager.set_status s row];
        QueueManager.last_rowid := n;
        QueueManager.journal :=
          j ++ [QueueManager.UpdateStatus s (QueueManager.id row)] |}).
Proof.
  intros H.
  destruct (below_counter_untouched (QueueManager.id row - 1)
              (QueueManager.set_status s) _ H) as [H1 H2].
  replace (QueueManager.id row - 1 + 1) with (QueueManager.id row) in H1, H2
    by lia.
  unfold QueueManager.updateStatus, try_catch, bind, QueueManager.update_run.
  simpl. rewrite List.filter_app, H2, map_app, H1. simpl.
  rewrite Z.eqb_refl. reflexivity.
Qed.

(** [process] for a rule without auto response. *)
Lemma process_plain_rule w rules message db :
  QueueManager.well_formed db ->
  let rule := findMatchingRule rules message in
  autoResponse rule = None ->
  let rowid := QueueManager.last_rowid db + 1 in
  let sent :=
    sendNotification w
      {| n_sender := sender message; n_content := content message;
         n_priority := priority rule;
         n_timestamp := timestamp_or_now w message;
         n_messageId := rowid |} in
  let row st :=
    {| QueueManager.id := rowid;
       QueueManager.sender := sender message;
       QueueManager.content := content message;
       QueueManager.priority := priority rule;
       QueueManager.status := st;
       QueueManager.timestamp := now_inserted w;
       QueueManager.routing_action := action rule;
       QueueManager.metadata := Some (queue_metadata w message) |} in
  exists db',
    process w rules message db
    = (Return {| messageId := rowid; result_action := action rule;
                 result_priority := priority rule;
                 notified := bool_decide (action rule = Notify) && sent;
                 responded := false; error := None |}, db')
    /\ QueueManager.rows db'
       = QueueManager.rows db ++ [row (final_status (action rule) sent)]
    /\ QueueManager.last_rowid db' = rowid
    /\ QueueManager.journal db'
       = QueueManager.journal db
         ++ QueueManager.InsertRow (row Pending)
            :: map (fun st => QueueManager.UpdateStatus st rowid)
                 (status_changes (action rule) sent)
    /\ QueueManager.well_formed db'.
Proof.
  intros Hwf rule Hauto rowid sent row.
  assert (Hl : Forall (fun m => QueueManager.id m <= rowid - 1)
                 (QueueManager.rows db)).
  { eapply Forall_impl; [exact Hwf|]. cbn. subst rowid. intros; lia. }
  pose proof (fun st0 st => updateStatus_last_row st (row st0)
                              (QueueManager.rows db) rowid) as Hup.
  cbn [QueueManager.id row] in Hup.
  assert (Hwf' : forall st,
            QueueManager.well_formed
              {| QueueManager.rows := QueueManager.rows db ++ [row st];
                 QueueManager.last_rowid := rowid;
                 QueueManager.journal := [] |}).
  { intros st. unfold QueueManager.well_formed. cbn. apply Forall_app. split.
    - eapply Forall_impl; [exact Hl|]. cbn. intros; lia.
    - repeat constructor. cbn. lia. }
  unfold process, try_catch, bind. fold rule. rewrite Hauto.
  unfold QueueManager.addToQueue, try_catch, QueueManager.insert_run.
  cbv zeta. fold rowid. fold (row Pending).
  unfold QueueManager.markProcessing, QueueManager.markResolved,
    QueueManager.markFailed, when, ret.
  destruct (action rule) eqn:Ha;
    repeat match goal with
      | |- context [bool_decide ?P] =>
          let b := eval vm_compute in (bool_decide P) in
          change (bool_decide P) with b
      end; cbn [andb].
  all: assert (Hset : forall s st, QueueManager.set_status s (row st) = row s)
    by reflexivity.
  all: fold sent; try destruct sent eqn:Hs;
    repeat (rewrite Hup by exact Hl; rewrite ?Hset);
    (eexists; split; [reflexivity|]); cbn [QueueManager.rows
       QueueManager.last_rowid QueueManager.journal final_status
       status_changes map];
    repeat split; try (now rewrite <- ?app_assoc); apply (Hwf' _).
Qed.

(** X10. What [process] does to the queue for a rule without auto
    response (as the five default rules are): it adds one row, with the
    next rowid, the priority and the action of the rule, and leaves it
    resolved or failed after a notification that was sent or not,
    resolved for ignore, pending for queue; the writes are the
    insertion as pending and the changes of status listed, a notify row
    passing through processing. The result names the row and says
    whether the notification was sent. *)
Theorem process_status_by_action w rules message db :
  QueueManager.well_formed db ->
  let rule := findMatchingRule rules message in
  autoResponse rule = None ->
  let rowid := QueueManager.last_rowid db + 1 in
  let sent :=
    sendNotification w
      {| n_sender := sender message; n_content := content message;
         n_priority := priority rule;
         n_timestamp := timestamp_or_now w message;
         n_messageId := rowid |} in
  let row st :=
    {| QueueManager.id := rowid;
       QueueManager.sender := sender message;
       QueueManager.content := content message;
       QueueManager.priority := priority rule;
       QueueManager.status := st;
       QueueManager.timestamp := now_inserted w;
       QueueManager.routing_action := action rule;
       QueueManager.metadata := Some (queue_metadata w message) |} in
  exists db',
    process w rules message db
    = (Return {| messageId := rowid; result_action := action rule;
                 result_priority := priority rule;
                 notified := bool_decide (action rule = Notify) && sent;
                 responded := false; error := None |}, db')
    /\ QueueManager.rows db'
       = QueueManager.rows db ++ [row (final_status (action rule) sent)]
    /\ QueueManager.last_rowid db' = rowid
    /\ QueueManager.journal db'
       = QueueManager.journal db
         ++ QueueManager.InsertRow (row Pending)
            :: map (fun st => QueueManager.UpdateStatus st rowid)
                 (status_changes (action rule) sent)
    /\ QueueManager.well_formed db'.
Proof.
  exact (process_plain_rule w rules message db).
Qed.

Lemma process_status_by_action_witness :
  let w := {| now_received := 1; now_processed := 2; now_inserted := 3;
              toLocaleString := fun _ => "";
              sendNotification := fun _ => false;
              sendTemplatedResponse := fun _ _ _ _ _ =>
                ret {| success := true; response_id := None;
                       response_error := None |} |} in
  let message := {| sender := "+15550000001"; content := "URGENT: server down";
                    channel := sms; timestamp := None; metadata := None |} in
  exists result db',
    process w new_rules message QueueManager.empty_db = (Return result, db')
    /\ result_priority result = Urgent
    /\ notified result = false
    /\ QueueManager.status <$> QueueManager.getMessage 1 db' = Some Failed.
Proof.
  intros w message.
  destruct (process_status_by_action w new_rules message QueueManager.empty_db
              ltac:(constructor) eq_refl) as (db' & H & Hrows & _).
  do 2 eexists. split; [exact H|]. split; [reflexivity|].
  split; [reflexivity|].
  unfold QueueManager.getMessage. rewrite Hrows. reflexivity.
Defined.

Lemma findMatchingRule_no_autoResponse rules message :
  Forall (fun r => autoResponse r = None) rules ->
  autoResponse (findMatchingRule rules message) = None.
Proof.
  intros H. unfold findMatchingRule.
  destruct (first_match rules message) as [rule|] eqn:E; [|reflexivity].
  destruct (first_match_split _ _ _ E) as (before & after & -> & _ & _).
  apply Forall_app in H as [_ H]. now apply Forall_cons in H as [H _].
Qed.

(** X11. [processBatch] returns one result for each message, in the
    order of the messages, and throws nothing, whatever happens to the
    single messages. With rules that have no auto response, each message
    adds exactly one row: the results carry consecutive rowids and the
    action of the rule each message matches. *)
Theorem processBatch_one_result_each rules messages :
  (forall w db, exists results db',
     processBatch w rules messages db = (Return results, db')
     /\ length results = length messages)
  /\ (Forall (fun r => autoResponse r = None) rules ->
      forall w db, QueueManager.well_formed db ->
      exists results db',
        processBatch w rules messages db = (Return results, db')
        /\ length (QueueManager.rows db')
           = (length (QueueManager.rows db) + length messages)%nat
        /\ map messageId results
           = seqZ (QueueManager.last_rowid db + 1) (Z.of_nat (length messages))
        /\ map result_action results
           = map (fun m => action (findMatchingRule rules m)) messages).
Proof.
  split.
  - induction messages as [|m ms IH]; intros w db; cbn.
    + do 2 eexists. split; reflexivity.
    + unfold bind at 1.
      destruct (process_returns (w 0%nat) rules m db)
        as (r & db1 & ->).
      unfold bind at 1.
      destruct (IH (fun i => w (S i)) db1) as (rs & db2 & -> & Hl).
      do 2 eexists. split; [reflexivity|]. cbn. now rewrite Hl.
  - intros Hno. induction messages as [|m ms IH]; intros w db Hwf; cbn.
    + do 2 eexists. split; [reflexivity|]. cbn. repeat split. lia.
    + destruct (process_plain_rule (w 0%nat) rules m db Hwf
                  (findMatchingRule_no_autoResponse _ _ Hno))
        as (db1 & Hp & Hrows & Hlast & _ & Hwf1).
      unfold bind at 1. rewrite Hp. unfold bind at 1.
      destruct (IH (fun i => w (S i)) db1 Hwf1)
        as (rs & db2 & -> & Hlen & Hids & Hacts).
      do 2 eexists. split; [reflexivity|]. cbn.
      rewrite Hlen, Hrows, length_app, Hids, Hacts, Hlast. cbn.
      split; [lia|]. split; [|reflexivity].
      rewrite (seqZ_cons _ (Z.of_nat (S (length ms)))) by lia.
      f_equal. f_equal; lia.
Qed.

Lemma processBatch_one_result_each_witness :
  let w := fun _ : nat =>
             {| now_received := 1; now_processed := 2; now_inserted := 3;
                toLocaleString := fun _ => "";
                sendNotification := fun _ => true;
                sendTemplatedResponse := fun _ _ _ _ _ =>
                  ret {| success := true; response_id := None;
                         response_error := None |} |} in
  let messages :=
    [{| sender := "+1111111111"; content := "URGENT message";
        channel := sms; timestamp := None; metadata := None |};
     {| sender := "+2222222222"; content := "Normal message";
        channel := sms; timestamp := None; metadata := None |};
     {| sender := "+3333333333"; content := "Can you help?";
        channel := sms; timestamp := None; metadata := None |}] in
  exists results db',
    processBatch w new_rules messages QueueManager.empty_db
    = (Return results, db')
    /\ map messageId results = [1; 2; 3]
    /\ map result_action results = [Notify; Queue; Notify].
Proof.
  intros w messages.
  destruct (proj2 (processBatch_one_result_each new_rules messages)
              ltac:(repeat constructor) w QueueManager.empty_db
              ltac:(constructor))
    as (results & db' & H & _ & Hids & Hacts).
  exists results, db'. split; [exact H|]. split; [exact Hids|exact Hacts].
Defined.

(** X12. [getPendingMessages] and [getMessagesByPriority], for a limit
    that SQLite takes (none given, or a whole number strictly between
    -2^63 and 2^63): they return rows of the table that are pending, or
    of the priority asked for, newest first, and change nothing; at most
    50 of them without a limit and at most [limit] for a positive limit.
    A limit of 0 does not give an empty list: it gives all the pending
    rows. For a limit outside that range, such as 2^63, both throw
    [Failed to retrieve queue: datatype mismatch]. *)
Theorem getPendingMessages_pending limit p db :
  (from_option QueueManager.sqlite_integer true limit = true ->
   (exists l,
      getPendingMessages limit db = (Return l, db)
      /\ Forall (fun m => m ∈ QueueManager.rows db
                          /\ QueueManager.status m = Pending) l
      /\ QueueManager.descending l
      /\ match limit with
         | None => (length l <= 50)%nat
         | Some n => if 0 <? n then (length l <= Z.to_nat n)%nat
                     else (length l <= length (QueueManager.rows db))%nat
         end
      /\ (limit = Some 0 ->
          length l = QueueManager.count_status Pending (QueueManager.rows db)))
   /\ (exists l,
         getMessagesByPriority p limit db = (Return l, db)
         /\ Forall (fun m => m ∈ QueueManager.rows db
                             /\ QueueManager.priority m = p) l
         /\ QueueManager.descending l
         /\ match limit with
            | None => (length l <= 50)%nat
            | Some n => if 0 <? n then (length l <= Z.to_nat n)%nat
                        else (length l <= length (QueueManager.rows db))%nat
            end))
  /\ (from_option QueueManager.sqlite_integer true limit = false ->
      getPendingMessages limit db
      = (Throw "Failed to retrieve queue: datatype mismatch", db)
      /\ getMessagesByPriority p limit db
         = (Throw "Failed to retrieve queue: datatype mismatch", db)).
Proof.
  assert (Hlen : forall f l,
            QueueManager.getQueue f db = (Return l, db) ->
            (length l <= length (QueueManager.rows db))%nat).
  { intros f l. rewrite getQueue_outcome.
    set (sel := QueueManager.order_by_ts_desc _).
    assert (Hs : (length sel <= length (QueueManager.rows db))%nat).
    { subst sel. rewrite (Permutation_length (order_by_ts_desc_Permutation _)).
      apply List.filter_length_le. }
    assert (Hw : forall n k,
              (length (QueueManager.limit_offset n k sel) <= length sel)%nat).
    { intros n k. unfold QueueManager.limit_offset.
      destruct (n <? 0); rewrite ?length_take, length_drop; lia. }
    destruct (QueueManager.truthy_num _), (QueueManager.truthy_num _);
      repeat match goal with
             | |- context [if ?c then _ else _] => destruct c
             end;
      intros [= <-]; try apply Hs; etransitivity; try apply Hw; apply Hs. }
  assert (Hret : forall f,
            QueueManager.f_offset f = None ->
            from_option QueueManager.sqlite_integer true
              (QueueManager.f_limit f) = true ->
            exists l, QueueManager.getQueue f db = (Return l, db)).
  { intros f Ho Hr. rewrite (getQueue_with_limit_or_none f db Ho).
    destruct (QueueManager.truthy_num (QueueManager.f_limit f)) eqn:Ht;
      [rewrite (truthy_num_sqlite_integer _ _ Hr Ht)|]; eauto. }
  split.
  - intros Hin.
    assert (Hr : from_option QueueManager.sqlite_integer true
                   (Some (default 50 limit)) = true)
      by (destruct limit; [exact Hin|reflexivity]).
    split.
    + unfold getPendingMessages.
      set (f := {| QueueManager.f_status := Some Pending |}).
      destruct (Hret f eq_refl Hr) as [l Hq].
      destruct (getQueue_returned f db l db Hq) as (_ & Hall & Hd & Hl).
      exists l. split; [exact Hq|]. split; [|split; [exact Hd|split]].
      * eapply Forall_impl; [exact Hall|]. cbn. intros m [Hm Hp].
        split; [exact Hm|].
        unfold QueueManager.passes in Hp. cbn in Hp.
        rewrite !andb_true_r in Hp. now apply bool_decide_eq_true in Hp.
      * destruct limit as [n|]; [|exact (Hl 50 eq_refl eq_refl)].
        destruct (Z.ltb_spec 0 n) as [Hpos|]; [exact (Hl n eq_refl Hpos)|].
        exact (Hlen f l Hq).
      * intros ->. revert Hq. rewrite getQueue_outcome. cbn.
        intros [= <-].
        rewrite (Permutation_length (order_by_ts_desc_Permutation _)).
        unfold QueueManager.count_status. f_equal.
        apply List.filter_ext. intros m. unfold QueueManager.passes. cbn.
        now rewrite !andb_true_r.
    + unfold getMessagesByPriority.
      set (f := {| QueueManager.f_priority := Some p |}).
      destruct (Hret f eq_refl Hr) as [l Hq].
      destruct (getQueue_returned f db l db Hq) as (_ & Hall & Hd & Hl).
      exists l. split; [exact Hq|]. split; [|split; [exact Hd|]].
      * eapply Forall_impl; [exact Hall|]. cbn. intros m [Hm Hp].
        split; [exact Hm|].
        unfold QueueManager.passes in Hp. cbn in Hp.
        rewrite !andb_true_r in Hp. now apply bool_decide_eq_true in Hp.
      * destruct limit as [n|]; [|exact (Hl 50 eq_refl eq_refl)].
        destruct (Z.ltb_spec 0 n) as [Hpos|]; [exact (Hl n eq_refl Hpos)|].
        exact (Hlen f l Hq).
  - destruct limit as [n|]; [|discriminate]. cbn [from_option]. intros Hout.
    assert (Ht : QueueManager.truthy_num (Some n) = Some n).
    { unfold QueueManager.truthy_num. destruct (Z.eqb_spec n 0) as [->|];
        [discriminate|reflexivity]. }
    split.
    + unfold getPendingMessages.
      rewrite getQueue_with_limit_or_none by reflexivity.
      cbn [QueueManager.f_limit default from_option id]. now rewrite Ht, Hout.
    + unfold getMessagesByPriority.
      rewrite getQueue_with_limit_or_none by reflexivity.
      cbn [QueueManager.f_limit default from_option id]. now rewrite Ht, Hout.
Qed.

Lemma getPendingMessages_pending_witness :
  let db := QueueManager.perform_all
              [QueueManager.Add 1 "Message 1" Normal Queue "+1111111111" None;
               QueueManager.Add 2 "Message 2" Normal Queue "+2222222222" None;
               QueueManager.Mark Resolved 2;
               QueueManager.Add 3 "Message 3" Normal Queue "+3333333333" None]
              QueueManager.empty_db in
  (exists l, getPendingMessages (Some 0) db = (Return l, db)
             /\ length l = 2%nat)
  /\ getPendingMessages (Some (2 ^ 63)) db
     = (Throw "Failed to retrieve queue: datatype mismatch", db).
Proof.
  intros db. split.
  - destruct (proj1 (proj1 (getPendingMessages_pending (Some 0) Normal db)
                      eq_refl))
      as (l & H & _ & _ & _ & H0).
    exists l. split; [exact H|]. now rewrite (H0 eq_refl).
  - exact (proj1 (proj2 (getPendingMessages_pending (Some (2 ^ 63)) Normal db)
                    eq_refl)).
Defined.

End RoutingMoreFacts.

(** ** TelegramNotifier: the escaping of Markdown *)

Section EscapeFacts.
Import TelegramNotifier.

Lemma append_assoc (a b c : string) : (a +:+ b) +:+ c = a +:+ (b +:+ c).
Proof.
  induction a as [|x a IH]; [reflexivity|].
  change (String x ((a +:+ b) +:+ c) = String x (a +:+ b +:+ c)).
  now rewrite IH.
Qed.

Lemma replace_all_app c by_ a b :
  replace_all c by_ (a +:+ b) = replace_all c by_ a +:+ replace_all c by_ b.
Proof.
  induction a as [|x a IH]; [reflexivity|].
  change (String x a +:+ b) with (String x (a +:+ b)).
  cbn [replace_all]. rewrite IH.
  destruct (Ascii.eqb x c); [symmetry; apply append_assoc|reflexivity].
Qed.

Lemma escapeMarkdown_app a b :
  escapeMarkdown (a +:+ b) = escapeMarkdown a +:+ escapeMarkdown b.
Proof. unfold escapeMarkdown. now rewrite !replace_all_app. Qed.

Lemma escapeMarkdown_char x :
  escapeMarkdown (String x EmptyString)
  = if special x then escaped x else String x EmptyString.
Proof. destruct x as [[] [] [] [] [] [] [] []]; vm_compute; reflexivity. Qed.

Lemma special_backslash x : special x = false -> Ascii.eqb x backslash = false.
Proof. destruct x as [[] [] [] [] [] [] [] []]; vm_compute; congruence. Qed.

(** X13. [escapeMarkdown], nineteen replacements one after the other,
    escapes character by character: each of the nineteen characters of
    Markdown gets one backslash before it, a backslash of the text
    included, and no other character is touched. So the escaping of a
    concatenation is the concatenation of the escapings, and a reader
    that takes a backslash to make the next character plain reads the
    text back: no two texts have the same escaping. *)
Theorem escapeMarkdown_each_character text :
  escapeMarkdown text = escape_each text
  /\ unescape (escapeMarkdown text) = text
  /\ (forall other, escapeMarkdown other = escapeMarkdown text -> other = text)
  /\ (String.length text <= String.length (escapeMarkdown text)
      <= 2 * String.length text)%nat.
Proof.
  assert (He : forall t, escapeMarkdown t = escape_each t).
  { induction t as [|x t IH]; [reflexivity|].
    change (String x t) with (String x EmptyString +:+ t).
    rewrite escapeMarkdown_app, escapeMarkdown_char, IH. reflexivity. }
  assert (Hu : forall t, unescape (escape_each t) = t).
  { induction t as [|x t IH]; [reflexivity|]. cbn [escape_each].
    destruct (special x) eqn:Hs.
    - change (escaped x +:+ escape_each t)
        with (String backslash (String x (escape_each t))).
      cbn [unescape]. now rewrite Ascii.eqb_refl, IH.
    - change (String x EmptyString +:+ escape_each t)
        with (String x (escape_each t)).
      cbn [unescape]. now rewrite (special_backslash x Hs), IH. }
  split; [apply He|]. split; [now rewrite He|]. split.
  - intros other H. rewrite <- (Hu other), <- (Hu text), <- !He. now rewrite H.
  - rewrite He. induction text as [|x t IH]; cbn [escape_each]; [cbn; lia|].
    destruct (special x).
    + change (escaped x +:+ escape_each t)
        with (String backslash (String x (escape_each t))).
      cbn [String.length]. lia.
    + change (String x EmptyString +:+ escape_each t)
        with (String x (escape_each t)).
      cbn [String.length]. lia.
Qed.

Lemma escapeMarkdown_each_character_witness :
  escapeMarkdown "Hi! (a_b) 1+1=2" = "Hi\! \(a\_b\) 1\+1\=2"
  /\ unescape "Hi\! \(a\_b\) 1\+1\=2" = "Hi! (a_b) 1+1=2".
Proof.
  split.
  - now rewrite (proj1 (escapeMarkdown_each_character "Hi! (a_b) 1+1=2")).
  - exact (proj1 (proj2 (escapeMarkdown_each_character "Hi! (a_b) 1+1=2"))).
Defined.

End EscapeFacts.
